(** * AITaskMaster API: a shallow embedding of [server.js]

    [server.js] is an Express application over a PostgreSQL pool: two
    authentication routes, the [verifyToken] middleware, and five task
    routes.  Each handler is embedded as a function from the request and
    the store to the response and the store.

    - JavaScript values are the type [jsval]; truthiness, [typeof],
      property access, [split] and [includes] follow the language.
    - An exception is a value of [result]; a handler's [try]/[catch] is a
      match on it.
    - The store is the database behind the pool: the tables [users] and
      [tasks] with the columns, defaults and constraints of the two
      CREATE TABLE statements, under the relational reading of the eight
      SQL statements the handlers send.  Parameters reach it as the text
      the pg driver sends for them.
    - jsonwebtoken, bcryptjs and the driver's serializer of compound values
      are a record of functions ([library]); what these libraries do before
      they look at their arguments (their type checks) is written out.

    The first part embeds the program, the second states and proves its
    properties. *)

From Stdlib Require Import ZArith String Ascii List Bool Lia.
From Stdlib Require Import Sorted Permutation DecimalString DecimalPos DecimalZ.
Import ListNotations.

Set Warnings "-register-all".
Local Open Scope string_scope.
Local Open Scope Z_scope.

(** ** JavaScript values *)

(** The values the handlers see: JSON values parsed by [express.json()],
    [undefined], and the [Date] objects the driver returns for timestamps.
    Numbers are the integers; an object is the list of its own properties,
    with distinct names. *)
Inductive jsval : Type :=
| JUndefined
| JNull
| JBool (b : bool)
| JNum (n : Z)
| JStr (s : string)
| JDate (t : Z)
| JArr (items : list jsval)
| JObj (props : list (string * jsval)).

(** ToBoolean: what [if (v)] and [!v] test. *)
Definition truthy (v : jsval) : bool :=
  match v with
  | JUndefined | JNull => false
  | JBool b => b
  | JNum n => negb (n =? 0)
  | JStr s => negb (s =? EmptyString)%string
  | JDate _ | JArr _ | JObj _ => true
  end.

(** [v !== undefined] *)
Definition not_undefined (v : jsval) : bool :=
  match v with
  | JUndefined => false
  | _ => true
  end.

Definition typeof (v : jsval) : string :=
  match v with
  | JUndefined => "undefined"
  | JNull => "object"
  | JBool _ => "boolean"
  | JNum _ => "number"
  | JStr _ => "string"
  | JDate _ | JArr _ | JObj _ => "object"
  end.

Fixpoint lookup_prop (name : string) (props : list (string * jsval)) : jsval :=
  match props with
  | [] => JUndefined
  | (k, v) :: rest => if (k =? name)%string then v else lookup_prop name rest
  end.

(** [v.name], and the object destructuring [const { name } = v], for the
    property names the handlers use ([id], [email], [password_hash], [sub],
    the body fields and [length]); none of them is an array index.  An array
    has [length] and no other of these names; a primitive has none.  The
    handlers apply it to [req.body] (an object or an array after
    [express.json()]), to [result.rows] and to decoded claims, never to
    [null] or [undefined]. *)
Definition get_prop (v : jsval) (name : string) : jsval :=
  match v with
  | JObj props => lookup_prop name props
  | JArr items =>
      if (name =? "length")%string then JNum (Z.of_nat (length items))
      else JUndefined
  | JStr s =>
      if (name =? "length")%string then JNum (Z.of_nat (String.length s))
      else JUndefined
  | _ => JUndefined
  end.

(** [s.split(sep)] for a one-character separator. *)
Fixpoint split (sep : ascii) (s : string) : list string :=
  match s with
  | EmptyString => [EmptyString]
  | String c rest =>
      if Ascii.eqb c sep then EmptyString :: split sep rest
      else match split sep rest with
           | [] => [String c EmptyString]
           | w :: ws => String c w :: ws
           end
  end.

(** [hay.includes(needle)] *)
Fixpoint includes (hay needle : string) : bool :=
  prefix needle hay ||
  match hay with
  | EmptyString => false
  | String _ rest => includes rest needle
  end.

(** The decimal digits of an integer, with a minus sign when it is
    negative: [n.toString()] for a number below 10^21 in magnitude.  (From
    10^21 on JavaScript prints a number with an exponent; [prepareValue]
    does not take its text from [toString] there.) *)
Definition toString (n : Z) : string := NilZero.string_of_int (Z.to_int n).

(** ** Exceptions *)

(** A thrown [Error].  Errors raised by the store carry the SQLSTATE in
    [code] and the violated constraint's name in [constraint]; for any other
    error both are empty. *)
Record js_error : Type := mk_error {
  message : string;
  code : string;
  constraint : string
}.

Definition Error (msg : string) : js_error := mk_error msg EmptyString EmptyString.

Definition result (A : Type) : Type := (js_error + A)%type.

Definition throw {A : Type} (e : js_error) : result A := inl e.

(** ** Responses *)

(** [res.status(s).json(b)]; [res.json(b)] answers with status 200. *)
Record response : Type := mk_response {
  status : Z;
  body : jsval
}.

Definition json_error (s : Z) (msg : string) : response :=
  mk_response s (JObj [("error", JStr msg)]).

Definition json_ok (b : jsval) : response := mk_response 200 b.

(** ** The libraries *)

(** What the handlers take from their libraries and the model leaves open:
    - [pg_compound]: the text the pg driver sends for a parameter it does
      not send as it stands: an array (its array literal), an object
      ([JSON.stringify]), a [Date], and a number of magnitude 10^21 or
      more (its exponent form);
    - [bcrypt_hash]: [bcrypt.hashSync(s, 10)] on a string;
    - [bcrypt_check]: [bcrypt.compareSync(s, hash)] on two strings;
    - [jwt_sign_payload]: [jwt.sign(payload, secret, { expiresIn })] at a
      given time;
    - [jwt_verify_string]: [jwt.verify(token, secret)] on a token that is a
      string, at a given time: the decoded claims, or the error thrown for a
      malformed token, a bad signature or an expired token. *)
Record library : Type := mk_library {
  pg_compound : jsval -> string;
  bcrypt_hash : string -> string;
  bcrypt_check : string -> string -> bool;
  jwt_sign_payload : jsval -> string -> string -> Z -> string;
  jwt_verify_string : string -> string -> Z -> result jsval
}.

(** ** The store *)

(** The two relations created at start-up.  A row of [users]:
    [id SERIAL PRIMARY KEY], [email VARCHAR(255) UNIQUE NOT NULL],
    [password_hash VARCHAR(255) NOT NULL], [created_at TIMESTAMP]. *)
Record user_row : Type := mk_user {
  u_id : Z;
  u_email : string;
  u_password_hash : string;
  u_created_at : Z
}.

(** A row of [tasks]; [None] is SQL NULL.  [user_id] and [title] are
    NOT NULL, the other text columns are nullable.  Text is kept whole: the
    length bounds of the VARCHAR columns are not tracked. *)
Record task_row : Type := mk_task {
  t_id : Z;
  t_user_id : Z;
  t_title : string;
  t_description : option string;
  t_category : option string;
  t_priority : option string;
  t_status : option string;
  t_suggested_deadline : option Z;
  t_actual_deadline : option Z;
  t_ai_analyzed : bool;
  t_created_at : Z;
  t_updated_at : Z
}.

(** The pool and the database behind it: the two tables, the last values
    of the sequences behind [users.id] and [tasks.id], the database clock
    ([CURRENT_TIMESTAMP]), and [fault]: the error the store raises, whatever
    the statement, when it does not run it (a lost connection, a server
    that refuses it, ...). *)
Record pool : Type := mk_pool {
  users : list user_row;
  tasks : list task_row;
  users_id_seq : Z;
  tasks_id_seq : Z;
  clock : Z;
  fault : option js_error
}.

Definition with_tasks (db : pool) (ts : list task_row) : pool :=
  mk_pool (users db) ts (users_id_seq db) (tasks_id_seq db) (clock db) (fault db).

Definition with_users (db : pool) (us : list user_row) (seq : Z) : pool :=
  mk_pool us (tasks db) seq (tasks_id_seq db) (clock db) (fault db).

Definition with_new_task (db : pool) (ts : list task_row) (seq : Z) : pool :=
  mk_pool (users db) ts (users_id_seq db) seq (clock db) (fault db).

Definition js_text (v : option string) : jsval :=
  match v with
  | Some s => JStr s
  | None => JNull
  end.

Definition js_date (v : option Z) : jsval :=
  match v with
  | Some t => JDate t
  | None => JNull
  end.

(** The object the driver builds for a row of [SELECT *] or [RETURNING *]. *)
Definition user_json (u : user_row) : jsval :=
  JObj [("id", JNum (u_id u)); ("email", JStr (u_email u));
        ("password_hash", JStr (u_password_hash u));
        ("created_at", JDate (u_created_at u))].

Definition task_json (t : task_row) : jsval :=
  JObj [("id", JNum (t_id t)); ("user_id", JNum (t_user_id t));
        ("title", JStr (t_title t));
        ("description", js_text (t_description t));
        ("category", js_text (t_category t));
        ("priority", js_text (t_priority t));
        ("status", js_text (t_status t));
        ("suggested_deadline", js_date (t_suggested_deadline t));
        ("actual_deadline", js_date (t_actual_deadline t));
        ("ai_analyzed", JBool (t_ai_analyzed t));
        ("created_at", JDate (t_created_at t));
        ("updated_at", JDate (t_updated_at t))].

(** *** Errors the store raises *)

Definition quoted (s : string) : string :=
  String "034"%char (s ++ String "034"%char EmptyString).

Definition unique_violation (name : string) : js_error :=
  mk_error ("duplicate key value violates unique constraint " ++ quoted name)
           "23505" name.

Definition not_null_violation (col rel : string) : js_error :=
  mk_error ("null value in column " ++ quoted col ++ " of relation " ++
            quoted rel ++ " violates not-null constraint")
           "23502" EmptyString.

Definition foreign_key_violation (rel name : string) : js_error :=
  mk_error ("insert or update on table " ++ quoted rel ++
            " violates foreign key constraint " ++ quoted name)
           "23503" name.

Definition invalid_integer (s : string) : js_error :=
  mk_error ("invalid input syntax for type integer: " ++ quoted s)
           "22P02" EmptyString.

Definition integer_out_of_range (s : string) : js_error :=
  mk_error ("value " ++ quoted s ++ " is out of range for type integer")
           "22003" EmptyString.

Definition missing_parameter : js_error :=
  mk_error "bind message supplies too few parameters" "08P01" EmptyString.

(** *** Binding parameters *)

Definition bind {A B : Type} (m : result A) (k : A -> result B) : result B :=
  match m with
  | inl e => inl e
  | inr a => k a
  end.

Notation "x <- m ;; k" := (bind m (fun x => k))
  (at level 61, m at next level, right associativity).

(** *** Statements *)

Inductive column : Type := Title | Description | Category | Priority | Status.

(** One entry of the [updates] array of the PATCH handler: [col = $n], or
    the closing [updated_at = CURRENT_TIMESTAMP]. *)
Inductive set_clause : Type :=
| SetParam (c : column) (n : nat)
| SetUpdatedAt.

(** The statements the handlers send, by their text:
    - [InsertUser]:
      INSERT INTO users (email, password_hash) VALUES ($1, $2) RETURNING id, email
    - [SelectUserByEmail]: SELECT * FROM users WHERE email = $1
    - [InsertTask]:
      INSERT INTO tasks (user_id, title, description) VALUES ($1, $2, $3) RETURNING *
    - [SelectTasks]:
      SELECT * FROM tasks WHERE user_id = $1 ORDER BY created_at DESC
    - [SelectTasksByStatus]:
      SELECT * FROM tasks WHERE user_id = $1 AND status = $2 ORDER BY created_at DESC
    - [SelectTask]: SELECT * FROM tasks WHERE id = $1 AND user_id = $2
    - [UpdateTask updates i u]:
      UPDATE tasks SET (updates, joined) WHERE id = $i AND user_id = $u RETURNING *
    - [DeleteTask]: DELETE FROM tasks WHERE id = $1 AND user_id = $2 *)
Inductive statement : Type :=
| InsertUser
| SelectUserByEmail
| InsertTask
| SelectTasks
| SelectTasksByStatus
| SelectTask
| UpdateTask (updates : list set_clause) (id_param user_id_param : nat)
| DeleteTask.

(** A SET clause once its parameter is bound. *)
Inductive assignment : Type :=
| Assign (c : column) (v : option string)
| AssignUpdatedAt.

Definition set_column (c : column) (v : option string) (t : task_row)
  : result task_row :=
  match c with
  | Title =>
      match v with
      | Some s =>
          inr (mk_task (t_id t) (t_user_id t) s (t_description t)
                 (t_category t) (t_priority t) (t_status t)
                 (t_suggested_deadline t) (t_actual_deadline t)
                 (t_ai_analyzed t) (t_created_at t) (t_updated_at t))
      | None => throw (not_null_violation "title" "tasks")
      end
  | Description =>
      inr (mk_task (t_id t) (t_user_id t) (t_title t) v
             (t_category t) (t_priority t) (t_status t)
             (t_suggested_deadline t) (t_actual_deadline t)
             (t_ai_analyzed t) (t_created_at t) (t_updated_at t))
  | Category =>
      inr (mk_task (t_id t) (t_user_id t) (t_title t) (t_description t)
             v (t_priority t) (t_status t)
             (t_suggested_deadline t) (t_actual_deadline t)
             (t_ai_analyzed t) (t_created_at t) (t_updated_at t))
  | Priority =>
      inr (mk_task (t_id t) (t_user_id t) (t_title t) (t_description t)
             (t_category t) v (t_status t)
             (t_suggested_deadline t) (t_actual_deadline t)
             (t_ai_analyzed t) (t_created_at t) (t_updated_at t))
  | Status =>
      inr (mk_task (t_id t) (t_user_id t) (t_title t) (t_description t)
             (t_category t) (t_priority t) v
             (t_suggested_deadline t) (t_actual_deadline t)
             (t_ai_analyzed t) (t_created_at t) (t_updated_at t))
  end.

Definition set_updated_at (now : Z) (t : task_row) : task_row :=
  mk_task (t_id t) (t_user_id t) (t_title t) (t_description t)
    (t_category t) (t_priority t) (t_status t)
    (t_suggested_deadline t) (t_actual_deadline t)
    (t_ai_analyzed t) (t_created_at t) now.

(** The new version of a row under the SET list: every clause assigns a
    parameter or the clock, none reads the row. *)
Fixpoint assign_all (sets : list assignment) (now : Z) (t : task_row)
  : result task_row :=
  match sets with
  | [] => inr t
  | Assign c v :: rest => t' <- set_column c v t ;; assign_all rest now t'
  | AssignUpdatedAt :: rest => assign_all rest now (set_updated_at now t)
  end.

(** UPDATE ... RETURNING *: the table after the update and the new versions
    of the rows that matched; a constraint violation on a matching row
    aborts the statement. *)
Fixpoint update_rows (matches : task_row -> bool)
    (change : task_row -> result task_row) (ts : list task_row)
  : result (list task_row * list task_row) :=
  match ts with
  | [] => inr ([], [])
  | t :: rest =>
      if matches t then
        t' <- change t ;;
        r <- update_rows matches change rest ;;
        inr (t' :: fst r, t' :: snd r)
      else
        r <- update_rows matches change rest ;;
        inr (t :: fst r, snd r)
  end.

(** ORDER BY created_at DESC *)
Fixpoint insert_desc (t : task_row) (sorted : list task_row) : list task_row :=
  match sorted with
  | [] => [t]
  | x :: rest =>
      if t_created_at x <=? t_created_at t then t :: sorted
      else x :: insert_desc t rest
  end.

Definition order_by_created_at_desc (ts : list task_row) : list task_row :=
  fold_right insert_desc [] ts.

(** [col = $n] on an integer and on a text column; a comparison with NULL
    holds for no row. *)
Definition eq_integer (col : Z) (p : option Z) : bool :=
  match p with
  | Some z => col =? z
  | None => false
  end.

Definition eq_text (col p : option string) : bool :=
  match col, p with
  | Some a, Some b => (a =? b)%string
  | _, _ => false
  end.

(** The server reads the text of an integer parameter as its input
    function for [integer] does: blanks, an optional sign, decimal digits,
    blanks.  A literal beyond the range of [integer] is told as such while
    its digits are read, before what follows them is looked at.  Spellings
    that only newer servers read (hexadecimal, octal and binary literals,
    underscores between digits) count as malformed. *)
Definition is_space (c : ascii) : bool :=
  (c =? " ")%char || (c =? "009")%char || (c =? "010")%char ||
  (c =? "011")%char || (c =? "012")%char || (c =? "013")%char.

Definition is_digit (c : ascii) : bool :=
  (48 <=? nat_of_ascii c)%nat && (nat_of_ascii c <=? 57)%nat.

Fixpoint skip_spaces (s : string) : string :=
  match s with
  | String c rest => if is_space c then skip_spaces rest else s
  | EmptyString => EmptyString
  end.

(** The digits [s] starts with, and what follows them. *)
Fixpoint leading_digits (s : string) : string * string :=
  match s with
  | String c rest =>
      if is_digit c then
        let '(digits, others) := leading_digits rest in (String c digits, others)
      else (EmptyString, s)
  | EmptyString => (EmptyString, EmptyString)
  end.

Definition int4in (s : string) : result Z :=
  let t := skip_spaces s in
  let '(negative, t) :=
    match t with
    | String c rest =>
        if (c =? "-")%char then (true, rest)
        else if (c =? "+")%char then (false, rest)
        else (false, t)
    | EmptyString => (false, t)
    end in
  let '(digits, others) := leading_digits t in
  match NilZero.uint_of_string digits with
  | None => throw (invalid_integer s)
  | Some d =>
      let m := Z.of_uint d in
      if 2147483648 <? m then throw (integer_out_of_range s)
      else if negb (skip_spaces others =? EmptyString)%string then
        throw (invalid_integer s)
      else if negb negative && (m =? 2147483648) then
        throw (integer_out_of_range s)
      else inr (if negative then - m else m)
  end.

Section Store.

Variable lib : library.

(** The driver's [prepareValue]: the text sent for a parameter, [None]
    for NULL. *)
Definition prepareValue (v : jsval) : option string :=
  match v with
  | JUndefined | JNull => None
  | JBool b => Some (if b then "true" else "false")
  | JNum n =>
      if Z.abs n <? 1000000000000000000000 then Some (toString n)
      else Some (pg_compound lib v)
  | JStr s => Some s
  | JDate _ | JArr _ | JObj _ => Some (pg_compound lib v)
  end.

(** The parameter [$n] of a statement sent with [params]. *)
Definition param (params : list jsval) (n : nat) : result jsval :=
  match n with
  | O => throw missing_parameter
  | S k =>
      match nth_error params k with
      | Some v => inr v
      | None => throw missing_parameter
      end
  end.

(** A parameter compared with an integer column ([id], [user_id]): the
    integer the server reads from its text, [None] for NULL. *)
Definition as_integer (v : jsval) : result (option Z) :=
  match prepareValue v with
  | Some s => z <- int4in s ;; inr (Some z)
  | None => inr None
  end.

Definition text_param (params : list jsval) (n : nat) : result (option string) :=
  v <- param params n ;; inr (prepareValue v).

Definition integer_param (params : list jsval) (n : nat) : result (option Z) :=
  v <- param params n ;; as_integer v.

Fixpoint bind_updates (updates : list set_clause) (params : list jsval)
  : result (list assignment) :=
  match updates with
  | [] => inr []
  | SetParam c n :: rest =>
      v <- text_param params n ;;
      sets <- bind_updates rest params ;;
      inr (Assign c v :: sets)
  | SetUpdatedAt :: rest =>
      sets <- bind_updates rest params ;;
      inr (AssignUpdatedAt :: sets)
  end.

Definition owned_task (id user_id : option Z) (t : task_row) : bool :=
  eq_integer (t_id t) id && eq_integer (t_user_id t) user_id.

(** One statement on the database: the rows it returns or the error it
    raises, and the database afterwards.  A statement that raises leaves
    the tables as they were; the sequence keeps the value it handed out.
    An INSERT checks its row against NOT NULL, then the primary key, then
    the other unique index, then the foreign key.  What the store refuses
    for its size or its encoding is not tracked here (a text longer than
    its VARCHAR bound, a text with a NUL character, a sequence at the end
    of [integer]); the properties that say a statement runs assume, with
    [storable] and [has_next], that the values are none of these. *)
Definition execute (st : statement) (params : list jsval) (db : pool)
  : result (list jsval) * pool :=
  match st with
  | InsertUser =>
      match (e <- text_param params 1 ;; h <- text_param params 2 ;; inr (e, h)) with
      | inl err => (inl err, db)
      | inr (email, hash) =>
          let id := users_id_seq db + 1 in
          match email, hash with
          | None, _ =>
              (throw (not_null_violation "email" "users"),
               with_users db (users db) id)
          | Some _, None =>
              (throw (not_null_violation "password_hash" "users"),
               with_users db (users db) id)
          | Some e, Some h =>
              if existsb (fun u => u_id u =? id) (users db) then
                (throw (unique_violation "users_pkey"),
                 with_users db (users db) id)
              else if existsb (fun u => (u_email u =? e)%string) (users db) then
                (throw (unique_violation "users_email_key"),
                 with_users db (users db) id)
              else
                (inr [JObj [("id", JNum id); ("email", JStr e)]],
                 with_users db (users db ++ [mk_user id e h (clock db)])%list id)
          end
      end
  | SelectUserByEmail =>
      (e <- text_param params 1 ;;
       inr (map user_json
              (filter (fun u => eq_text (Some (u_email u)) e) (users db))),
       db)
  | InsertTask =>
      match (u <- integer_param params 1 ;;
             t <- text_param params 2 ;;
             d <- text_param params 3 ;;
             inr (u, t, d))
      with
      | inl err => (inl err, db)
      | inr (owner, title, description) =>
          let id := tasks_id_seq db + 1 in
          match owner, title with
          | None, _ =>
              (throw (not_null_violation "user_id" "tasks"),
               with_new_task db (tasks db) id)
          | Some _, None =>
              (throw (not_null_violation "title" "tasks"),
               with_new_task db (tasks db) id)
          | Some u, Some t =>
              if existsb (fun r => t_id r =? id) (tasks db) then
                (throw (unique_violation "tasks_pkey"),
                 with_new_task db (tasks db) id)
              else if existsb (fun r => u_id r =? u) (users db) then
                let row := mk_task id u t description None (Some "MEDIUM")
                             (Some "TODO") None None false (clock db) (clock db) in
                (inr [task_json row], with_new_task db (tasks db ++ [row])%list id)
              else
                (throw (foreign_key_violation "tasks" "tasks_user_id_fkey"),
                 with_new_task db (tasks db) id)
          end
      end
  | SelectTasks =>
      (u <- integer_param params 1 ;;
       inr (map task_json
              (order_by_created_at_desc
                 (filter (fun t => eq_integer (t_user_id t) u) (tasks db)))),
       db)
  | SelectTasksByStatus =>
      (u <- integer_param params 1 ;;
       s <- text_param params 2 ;;
       inr (map task_json
              (order_by_created_at_desc
                 (filter (fun t => eq_integer (t_user_id t) u &&
                                   eq_text (t_status t) s) (tasks db)))),
       db)
  | SelectTask =>
      (i <- integer_param params 1 ;;
       u <- integer_param params 2 ;;
       inr (map task_json (filter (owned_task i u) (tasks db))),
       db)
  | UpdateTask updates id_param user_id_param =>
      match (sets <- bind_updates updates params ;;
             i <- integer_param params id_param ;;
             u <- integer_param params user_id_param ;;
             update_rows (owned_task i u) (assign_all sets (clock db)) (tasks db))
      with
      | inl err => (inl err, db)
      | inr (table, returned) => (inr (map task_json returned), with_tasks db table)
      end
  | DeleteTask =>
      match (i <- integer_param params 1 ;;
             u <- integer_param params 2 ;;
             inr (filter (fun t => negb (owned_task i u t)) (tasks db)))
      with
      | inl err => (inl err, db)
      | inr table => (inr [], with_tasks db table)
      end
  end.

(** [await pool.query(text, params)] *)
Definition pool_query (st : statement) (params : list jsval) (db : pool)
  : result (list jsval) * pool :=
  match fault db with
  | Some err => (inl err, db)
  | None => execute st params db
  end.

End Store.

(** ** The server *)

(** What a handler reads of [req]: the Authorization header, the parsed
    JSON body, the [:id] segment of the path, the [status] query parameter,
    and [user_id], which [verifyToken] sets. *)
Record request : Type := mk_request {
  authorization : option string;
  req_body : jsval;
  params_id : jsval;
  query_status : jsval;
  user_id : jsval
}.

Definition set_user_id (req : request) (v : jsval) : request :=
  mk_request (authorization req) (req_body req) (params_id req)
    (query_status req) v.

(** A middleware either answers or calls [next()]. *)
Inductive middleware : Type :=
| Next (req : request)
| Responded (res : response).

(** The state of the PATCH handler while it collects the fields:
    [updates], [params] and [paramCount]. *)
Definition patch_state : Type := (list set_clause * list jsval * nat)%type.

(** if (v !== undefined) { updates.push(`col = $${paramCount}`);
    params.push(v); paramCount++; } *)
Definition add_update (c : column) (v : jsval) (st : patch_state) : patch_state :=
  let '(updates, params, paramCount) := st in
  if not_undefined v then
    ((updates ++ [SetParam c paramCount])%list, (params ++ [v])%list, S paramCount)
  else st.

Section Server.

Variable lib : library.

(** [process.env.JWT_SECRET] *)
Variable env_JWT_SECRET : option string.

Definition JWT_SECRET : string :=
  match env_JWT_SECRET with
  | Some s => if truthy (JStr s) then s else "your-secret-key-change-this"
  | None => "your-secret-key-change-this"
  end.

(** [jwt.verify(token, secret)] without a callback: jsonwebtoken rejects
    a missing token and a token that is not a string before it looks at
    the token. *)
Definition jwt_verify (token : jsval) (secret : string) (now : Z) : result jsval :=
  if negb (truthy token) then throw (Error "jwt must be provided")
  else match token with
       | JStr s => jwt_verify_string lib s secret now
       | _ => throw (Error "jwt must be a string")
       end.

(** [jwt.sign(payload, JWT_SECRET, { expiresIn: '24h' })] *)
Definition jwt_sign (payload : jsval) (now : Z) : string :=
  jwt_sign_payload lib payload JWT_SECRET "24h" now.

(** [bcrypt.hashSync(s, 10)]: bcryptjs throws unless [s] is a string. *)
Definition hashSync (s : jsval) : result string :=
  match s with
  | JStr p => inr (bcrypt_hash lib p)
  | _ => throw (Error ("Illegal arguments: " ++ typeof s ++ ", string"))
  end.

(** [bcrypt.compareSync(s, hash)]: bcryptjs throws unless both are
    strings. *)
Definition compareSync (s hash : jsval) : result bool :=
  match s, hash with
  | JStr p, JStr h => inr (bcrypt_check lib p h)
  | _, _ => throw (Error ("Illegal arguments: " ++ typeof s ++ ", " ++ typeof hash))
  end.

(** *** verifyToken *)

Definition verifyToken (req : request) (now : Z) : middleware :=
  let token :=
    match authorization req with
    | Some h => JArr (map JStr (split " "%char h))
    | None => JUndefined
    end in
  if negb (truthy token) then Responded (json_error 401 "No token")
  else
    match jwt_verify token JWT_SECRET now with
    | inr decoded => Next (set_user_id req (get_prop decoded "sub"))
    | inl _ => Responded (json_error 401 "Invalid token")
    end.

(** A route registered as [app.METHOD(path, verifyToken, handler)]. *)
Definition guarded (handler : request -> pool -> response * pool)
    (req : request) (now : Z) (db : pool) : response * pool :=
  match verifyToken req now with
  | Next req' => handler req' db
  | Responded res => (res, db)
  end.

(** *** POST /api/auth/register *)

Definition register_catch (err : js_error) : response :=
  if includes (message err) "duplicate" then
    json_error 400 "Email already exists"
  else json_error 500 "Registration failed".

Definition auth_response (user : jsval) (now : Z) : response :=
  let token := jwt_sign (JObj [("sub", get_prop user "id")]) now in
  json_ok (JObj [("access_token", JStr token);
                 ("token_type", JStr "bearer");
                 ("user", JObj [("id", get_prop user "id");
                                ("email", get_prop user "email")])]).

Definition register (req : request) (now : Z) (db : pool) : response * pool :=
  let email := get_prop (req_body req) "email" in
  let password := get_prop (req_body req) "password" in
  if negb (truthy email) || negb (truthy password) then
    (json_error 400 "Email and password required", db)
  else
    match hashSync password with
    | inl err => (register_catch err, db)
    | inr passwordHash =>
        match pool_query lib InsertUser [email; JStr passwordHash] db with
        | (inl err, db') => (register_catch err, db')
        | (inr rows, db') =>
            let user := JArr rows in
            (auth_response user now, db')
        end
    end.

(** *** POST /api/auth/login *)

Definition login (req : request) (now : Z) (db : pool) : response * pool :=
  let email := get_prop (req_body req) "email" in
  let password := get_prop (req_body req) "password" in
  if negb (truthy email) || negb (truthy password) then
    (json_error 400 "Email and password required", db)
  else
    match pool_query lib SelectUserByEmail [email] db with
    | (inl _, db') => (json_error 500 "Login failed", db')
    | (inr rows, db') =>
        if Z.of_nat (length rows) =? 0 then
          (json_error 401 "Invalid credentials", db')
        else
          let user := JArr rows in
          match compareSync password (get_prop user "password_hash") with
          | inl _ => (json_error 500 "Login failed", db')
          | inr passwordMatch =>
              if negb passwordMatch then
                (json_error 401 "Invalid credentials", db')
              else (auth_response user now, db')
          end
    end.

(** *** POST /api/tasks *)

Definition create_task (req : request) (db : pool) : response * pool :=
  let title := get_prop (req_body req) "title" in
  let description := get_prop (req_body req) "description" in
  if negb (truthy title) then (json_error 400 "Title required", db)
  else
    match pool_query lib InsertTask [user_id req; title; description] db with
    | (inr rows, db') => (json_ok (JArr rows), db')
    | (inl _, db') => (json_error 500 "Task creation failed", db')
    end.

(** *** GET /api/tasks *)

Definition list_tasks (req : request) (db : pool) : response * pool :=
  let status := query_status req in
  let query := SelectTasks in
  let params := [user_id req] in
  let '(query, params) :=
    if truthy status then (SelectTasksByStatus, (params ++ [status])%list)
    else (query, params) in
  match pool_query lib query params db with
  | (inr rows, db') =>
      (json_ok (JObj [("tasks", JArr rows);
                      ("total", JNum (Z.of_nat (length rows)))]), db')
  | (inl _, db') => (json_error 500 "Failed to fetch tasks", db')
  end.

(** *** GET /api/tasks/:id *)

Definition get_task (req : request) (db : pool) : response * pool :=
  match pool_query lib SelectTask [params_id req; user_id req] db with
  | (inr rows, db') =>
      if Z.of_nat (length rows) =? 0 then
        (json_error 404 "Task not found", db')
      else (json_ok (JArr rows), db')
  | (inl _, db') => (json_error 500 "Failed to fetch task", db')
  end.

(** *** PATCH /api/tasks/:id *)

Definition collect_updates (body : jsval) : patch_state :=
  let title := get_prop body "title" in
  let description := get_prop body "description" in
  let category := get_prop body "category" in
  let priority := get_prop body "priority" in
  let status := get_prop body "status" in
  add_update Status status
    (add_update Priority priority
       (add_update Category category
          (add_update Description description
             (add_update Title title ([], [], 1%nat))))).

Definition update_task (req : request) (db : pool) : response * pool :=
  let '(updates, params, paramCount) := collect_updates (req_body req) in
  if Nat.eqb (length updates) 0 then
    (json_error 400 "No updates provided", db)
  else
    let updates := (updates ++ [SetUpdatedAt])%list in
    let params := ((params ++ [params_id req]) ++ [user_id req])%list in
    let query := UpdateTask updates paramCount (paramCount + 1) in
    match pool_query lib query params db with
    | (inr rows, db') =>
        if Z.of_nat (length rows) =? 0 then
          (json_error 404 "Task not found", db')
        else (json_ok (JArr rows), db')
    | (inl _, db') => (json_error 500 "Update failed", db')
    end.

(** *** DELETE /api/tasks/:id *)

Definition delete_task (req : request) (db : pool) : response * pool :=
  match pool_query lib DeleteTask [params_id req; user_id req] db with
  | (inr _, db') => (json_ok (JObj [("success", JBool true)]), db')
  | (inl _, db') => (json_error 500 "Delete failed", db')
  end.

(** *** The routes *)

(** [app.post('/api/tasks', verifyToken, ...)] and the four other task
    routes: the handler runs behind the guard. *)
Definition app_post_tasks : request -> Z -> pool -> response * pool :=
  guarded create_task.

Definition app_get_tasks : request -> Z -> pool -> response * pool :=
  guarded list_tasks.

Definition app_get_task : request -> Z -> pool -> response * pool :=
  guarded get_task.

Definition app_patch_task : request -> Z -> pool -> response * pool :=
  guarded update_task.

Definition app_delete_task : request -> Z -> pool -> response * pool :=
  guarded delete_task.

(** [app.get('/', ...)] *)
Definition home : response :=
  json_ok (JObj [("message", JStr "AITaskMaster API is running!")]).

End Server.

(** * What the properties are stated with *)

(** ** The statement of the PATCH handler, field by field *)

(** The recognized fields a body carries, in the order the handler visits
    them, with their values. *)
Definition patch_fields (body : jsval) : list (column * jsval) :=
  filter (fun f => not_undefined (snd f))
    [(Title, get_prop body "title");
     (Description, get_prop body "description");
     (Category, get_prop body "category");
     (Priority, get_prop body "priority");
     (Status, get_prop body "status")].

(** [col = $n], [col' = $(n+1)], ... *)
Fixpoint numbered (n : nat) (cols : list column) : list set_clause :=
  match cols with
  | [] => []
  | c :: rest => SetParam c n :: numbered (S n) rest
  end.

(** The SET list of the fields, each with the text sent for its value. *)
Definition bound (lib : library) (fields : list (column * jsval)) : list assignment :=
  map (fun f => Assign (fst f) (prepareValue lib (snd f))) fields.

(** The body field and the stored value behind each column of a patch. *)
Definition column_name (c : column) : string :=
  match c with
  | Title => "title"
  | Description => "description"
  | Category => "category"
  | Priority => "priority"
  | Status => "status"
  end.

Definition column_value (c : column) (t : task_row) : option string :=
  match c with
  | Title => Some (t_title t)
  | Description => t_description t
  | Category => t_category t
  | Priority => t_priority t
  | Status => t_status t
  end.

(** ** Rows a request addresses, and stores the handlers can reach *)

(** The rows a request on [/api/tasks/:id] addresses: those with the id of
    the path and the user id of the request, when the store reads both as
    integers; none otherwise. *)
Definition addressed (lib : library) (req : request) (t : task_row) : bool :=
  match as_integer lib (params_id req), as_integer lib (user_id req) with
  | inr i, inr u => owned_task i u t
  | _, _ => false
  end.

(** What the constraints of the two tables and the two sequences say of a
    store: [users.id] and [tasks.id] are keys handed out by their
    sequences, [users.email] is unique, and every task refers to a user. *)
Definition store_ok (db : pool) : Prop :=
  NoDup (map u_id (users db)) /\
  NoDup (map u_email (users db)) /\
  (forall u, In u (users db) -> u_id u <= users_id_seq db) /\
  NoDup (map t_id (tasks db)) /\
  (forall t, In t (tasks db) -> t_id t <= tasks_id_seq db) /\
  (forall t, In t (tasks db) -> exists u, In u (users db) /\ u_id u = t_user_id t).

(** Values the store refuses for their size or their encoding, which
    [execute] does not track.  [storable bound v] says that the parameter
    [v] is none of them for a column of at most [bound] characters ([None]
    for TEXT): it holds no NUL character and no more characters than the
    column takes.  [has_next seq] says that the sequence can hand out one
    more id within [integer]. *)
Definition has_nul (s : string) : bool :=
  existsb (Ascii.eqb zero) (list_ascii_of_string s).

Definition storable (bound : option nat) (v : option string) : bool :=
  match v with
  | Some s =>
      negb (has_nul s) &&
      match bound with
      | Some n => Nat.leb (String.length s) n
      | None => true
      end
  | None => true
  end.

Definition has_next (seq : Z) : bool := seq <? 2147483647.

(** The digits printed for a number, for zero the digit 0. *)
Definition printed (d : Decimal.uint) : Decimal.uint :=
  match d with
  | Decimal.Nil => Decimal.D0 Decimal.Nil
  | _ => d
  end.

(** The values of a patch are values their columns take: [title]
    VARCHAR(255), [description] TEXT, [category] VARCHAR(100), [priority]
    and [status] VARCHAR(50). *)
Definition patch_storable (lib : library) (body : jsval) : bool :=
  storable (Some 255%nat) (prepareValue lib (get_prop body "title")) &&
  storable None (prepareValue lib (get_prop body "description")) &&
  storable (Some 100%nat) (prepareValue lib (get_prop body "category")) &&
  storable (Some 50%nat) (prepareValue lib (get_prop body "priority")) &&
  storable (Some 50%nat) (prepareValue lib (get_prop body "status")).

(** The tasks of one user. *)
Definition owned_by (u : Z) (t : task_row) : bool := t_user_id t =? u.

(** What no UPDATE of the handlers assigns: [t'] has the id, the owner,
    the creation time, the deadlines and the flag of [t]. *)
Definition keeps_identity (t t' : task_row) : Prop :=
  t_id t' = t_id t /\
  t_user_id t' = t_user_id t /\
  t_created_at t' = t_created_at t /\
  t_suggested_deadline t' = t_suggested_deadline t /\
  t_actual_deadline t' = t_actual_deadline t /\
  t_ai_analyzed t' = t_ai_analyzed t.

(** The responses a handler gives besides 200. *)
Definition answers (res : response) (errors : list (Z * string)) : Prop :=
  status res = 200 \/ exists s msg, In (s, msg) errors /\ res = json_error s msg.

(** ** The specification's words *)


(** The rows [list] is to return for owner [u]: the owner's tasks, and when
    the status filter counts as given ([if (status)]), those among them
    whose status is the filter's text. *)
Definition listed (lib : library) (u : Z) (status : jsval) (t : task_row) : bool :=
  (t_user_id t =? u) &&
  (if truthy status then eq_text (t_status t) (prepareValue lib status) else true).

(** The stored value of a column after a patch whose field is [v]: the
    text the driver sends for [v] when the field is present, the prior
    value when it is absent ([undefined]). *)
Definition patch_value (lib : library) (v : jsval) (old : option string)
  : option string :=
  if not_undefined v then prepareValue lib v else old.

(** [t'] is [t] with the fields of [body] set and [updated_at] bumped:
    the sparse merge of the patch into the row. *)
Definition patched (lib : library) (body : jsval) (now : Z) (t t' : task_row)
  : Prop :=
  Some (t_title t') = patch_value lib (get_prop body "title") (Some (t_title t)) /\
  t_description t' = patch_value lib (get_prop body "description") (t_description t) /\
  t_category t' = patch_value lib (get_prop body "category") (t_category t) /\
  t_priority t' = patch_value lib (get_prop body "priority") (t_priority t) /\
  t_status t' = patch_value lib (get_prop body "status") (t_status t) /\
  t_updated_at t' = now /\
  t_id t' = t_id t /\
  t_user_id t' = t_user_id t /\
  t_suggested_deadline t' = t_suggested_deadline t /\
  t_actual_deadline t' = t_actual_deadline t /\
  t_ai_analyzed t' = t_ai_analyzed t /\
  t_created_at t' = t_created_at t.

(** The failure the store raises for a second user with the same email,
    told by its condition: SQLSTATE 23505 on the constraint of
    [users.email]. *)
Definition email_uniqueness_violation (err : js_error) : bool :=
  (code err =? "23505")%string && (constraint err =? "users_email_key")%string.

(** ** A concrete instance of the libraries

    Used to run the handlers on examples: hashes, tokens and compound
    parameters are readable strings. *)

Definition sample_token (payload : jsval) : string :=
  match get_prop payload "sub" with
  | JNum n => "token-for-" ++ toString n
  | _ => "token-for-nobody"
  end.

Definition sample_library : library :=
  mk_library
    (fun _ => "{}")
    (fun p => "hash:" ++ p)
    (fun p h => (h =? "hash:" ++ p)%string)
    (fun payload _ _ _ => sample_token payload)
    (fun token _ _ =>
       if (token =? "token-for-1")%string then inr (JObj [("sub", JNum 1)])
       else if (token =? "token-for-2")%string then inr (JObj [("sub", JNum 2)])
       else throw (Error "invalid signature")).

(** ** Sample requests and stores *)

(** A request on [/api/auth/register] or [/api/auth/login]. *)
Definition register_request (email password : string) : request :=
  mk_request None (JObj [("email", JStr email); ("password", JStr password)])
    JUndefined JUndefined JUndefined.

(** A request on [/api/tasks/:id] by the user [who]. *)
Definition task_request (who : Z) (id : string) (patch : jsval) : request :=
  mk_request None patch (JStr id) JUndefined (JNum who).


Definition empty_store : pool := mk_pool [] [] 0 0 1000 None.

Definition one_user_store : pool :=
  mk_pool [mk_user 1 "a@x.com" "hash:pw1" 1000] [] 1 0 1000 None.

(** The store reports a clash on the primary key of [users] (its sequence
    lags behind the table). *)
Definition users_pkey_store : pool :=
  mk_pool [] [] 0 0 1000 (Some (unique_violation "users_pkey")).

(** The store reports the uniqueness violation on [users.email] with a
    message in another language. *)
Definition translated_violation : js_error :=
  mk_error ("un valore chiave duplicato viola il vincolo univoco "
            ++ quoted "users_email_key")
           "23505" "users_email_key".

Definition translated_store : pool :=
  mk_pool [mk_user 1 "a@x.com" "hash:pw1" 1000] [] 1 0 1000 (Some translated_violation).

(** Two tasks of user 1 and one of user 2. *)
Definition task_1 : task_row :=
  mk_task 1 1 "buy milk" None None (Some "MEDIUM") (Some "TODO") None None false 10 10.

Definition task_2 : task_row :=
  mk_task 2 2 "call home" None None (Some "MEDIUM") (Some "TODO") None None false 20 20.

Definition task_3 : task_row :=
  mk_task 3 1 "pay rent" None None (Some "MEDIUM") (Some "DONE") None None false 30 30.

Definition sample_store : pool :=
  mk_pool [mk_user 1 "a@x.com" "hash:pw1" 1; mk_user 2 "b@x.com" "hash:pw2" 2]
          [task_1; task_2; task_3] 2 3 1000 None.

(** Task 1 after [{ status: 'DONE' }], and after [{ priority: null }], at
    time 1000. *)
Definition task_1_done : task_row :=
  mk_task 1 1 "buy milk" None None (Some "MEDIUM") (Some "DONE") None None false 10 1000.

Definition task_1_no_priority : task_row :=
  mk_task 1 1 "buy milk" None None None (Some "TODO") None None false 10 1000.

(** The task user 1 creates next in [sample_store], at time 1000. *)
Definition task_4 : task_row :=
  mk_task 4 1 "water plants" None None (Some "MEDIUM") (Some "TODO") None None
    false 1000 1000.

(** A store whose connection is gone. *)
Definition unreachable_store : pool :=
  mk_pool [mk_user 1 "a@x.com" "hash:pw1" 1] [task_1] 1 1 1000
    (Some (Error "Connection terminated unexpectedly")).

(** * Properties *)

(** ** The access guard *)

Section AccessGuard.

Variable lib : library.
Variable env_JWT_SECRET : option string.

Lemma jwt_verify_array (items : list jsval) (secret : string) (now : Z) :
  jwt_verify lib (JArr items) secret now = throw (Error "jwt must be a string").
Proof. reflexivity. Qed.

(** What [jwt.verify] does with the token portion of a header, had the
    guard passed it. *)
Lemma jwt_verify_string_token (s : string) (secret : string) (now : Z) :
  s <> EmptyString ->
  jwt_verify lib (JStr s) secret now = jwt_verify_string lib s secret now.
Proof.
  intros Hs. unfold jwt_verify. simpl.
  destruct (String.eqb_spec s EmptyString) as [E | _]; [contradiction | reflexivity].
Qed.

End AccessGuard.

(** C2 (the code departs from it).  The guard never accepts a request: with
    no Authorization header it answers 401 [No token]; with any header, also
    [Bearer <token>] for a token with a valid signature and expiry, it hands
    [jwt.verify] the array produced by [split] and answers 401
    [Invalid token].  It never calls [next()] and never sets [user_id]. *)
Theorem verifyToken_rejects_every_request :
  forall (lib : library) (env_JWT_SECRET : option string) (req : request) (now : Z),
    verifyToken lib env_JWT_SECRET req now =
    Responded (json_error 401
                 match authorization req with
                 | Some _ => "Invalid token"
                 | None => "No token"
                 end).
Proof.
  intros lib env req now. unfold verifyToken.
  destruct (authorization req) as [h | ]; reflexivity.
Qed.

(** The token the sample library accepts for user 1 is rejected when it is
    presented as a bearer token. *)
Example verifyToken_valid_bearer_rejected :
  jwt_verify_string sample_library "token-for-1"
    (JWT_SECRET None) 0 = inr (JObj [("sub", JNum 1)]) /\
  verifyToken sample_library None
    (mk_request (Some "Bearer token-for-1") (JObj []) JUndefined JUndefined JUndefined) 0
  = Responded (json_error 401 "Invalid token").
Proof. split; reflexivity. Qed.

(** Every guarded route therefore answers 401 and leaves the store alone,
    whatever its handler is. *)
Corollary guarded_route_unauthenticated :
  forall (lib : library) (env_JWT_SECRET : option string)
         (handler : request -> pool -> response * pool)
         (req : request) (now : Z) (db : pool),
    status (fst (guarded lib env_JWT_SECRET handler req now db)) = 401 /\
    snd (guarded lib env_JWT_SECRET handler req now db) = db.
Proof.
  intros. unfold guarded, verifyToken.
  destruct (authorization req); split; reflexivity.
Qed.

(** ** The store: basic facts *)

Lemma with_tasks_same (db : pool) : with_tasks db (tasks db) = db.
Proof. destruct db; reflexivity. Qed.

Lemma pool_query_available (lib : library) (st : statement)
    (params : list jsval) (db : pool) :
  fault db = None -> pool_query lib st params db = execute lib st params db.
Proof. intros H. unfold pool_query. rewrite H. reflexivity. Qed.

Lemma pool_query_fault (lib : library) (st : statement)
    (params : list jsval) (db : pool) (err : js_error) :
  fault db = Some err -> pool_query lib st params db = (inl err, db).
Proof. intros H. unfold pool_query. rewrite H. reflexivity. Qed.

(** No row has the id the sequence hands out next when the sequence is
    not behind the table. *)
Lemma next_id_is_free {A : Type} (id : A -> Z) (rows : list A) (seq : Z) :
  (forall r, In r rows -> id r <= seq) ->
  existsb (fun r => id r =? seq + 1) rows = false.
Proof.
  intros H. induction rows as [ | r rows IH]; simpl; [reflexivity | ].
  rewrite IH by (intros x Hx; apply H; right; exact Hx).
  pose proof (H r (or_introl eq_refl)).
  rewrite orb_false_r. apply Z.eqb_neq. lia.
Qed.

(** ** Integer parameters *)

Lemma skip_spaces_app (blanks rest : string) :
  skip_spaces blanks = EmptyString ->
  skip_spaces (blanks ++ rest) = skip_spaces rest.
Proof.
  induction blanks as [ | c blanks IH]; simpl; intros H; [reflexivity | ].
  destruct (is_space c); [apply IH; exact H | discriminate].
Qed.

Lemma space_is_no_digit (c : ascii) : is_space c = true -> is_digit c = false.
Proof.
  destruct c as [[] [] [] [] [] [] [] []]; intros H; try reflexivity;
    discriminate H.
Qed.

Lemma leading_digits_blanks (blanks : string) :
  skip_spaces blanks = EmptyString -> leading_digits blanks = (EmptyString, blanks).
Proof.
  destruct blanks as [ | c blanks]; simpl; intros H; [reflexivity | ].
  destruct (is_space c) eqn:E; [ | discriminate].
  rewrite (space_is_no_digit c E). reflexivity.
Qed.

Lemma leading_digits_printed (d : Decimal.uint) (blanks : string) :
  skip_spaces blanks = EmptyString ->
  leading_digits (NilEmpty.string_of_uint d ++ blanks)
  = (NilEmpty.string_of_uint d, blanks).
Proof.
  intros H.
  induction d; cbn [NilEmpty.string_of_uint leading_digits append];
    try (apply leading_digits_blanks; exact H);
    replace (is_digit _) with true by reflexivity; rewrite IHd; reflexivity.
Qed.

Lemma printed_digits (d : Decimal.uint) :
  NilZero.string_of_uint d = NilEmpty.string_of_uint (printed d) /\
  NilZero.uint_of_string (NilEmpty.string_of_uint (printed d)) = Some (printed d) /\
  Z.of_uint (printed d) = Z.of_uint d /\
  skip_spaces (NilZero.string_of_uint d) = NilZero.string_of_uint d /\
  exists c rest, NilZero.string_of_uint d = String c rest /\
                 (c =? "-")%char = false /\ (c =? "+")%char = false /\
                 is_space c = false.
Proof.
  split; [destruct d; reflexivity | ].
  split.
  { pose proof (NilEmpty.usu (printed d)) as H.
    destruct d; simpl in *; exact H. }
  split; [destruct d; reflexivity | ].
  split; destruct d; try reflexivity; simpl; do 2 eexists; repeat split.
Qed.

(** How the store reads the decimal digits of a natural number, with or
    without a sign and with blanks around them. *)
Lemma int4in_digits (d : Decimal.uint) (sign : string) (negative : bool)
    (before after : string) :
  (sign, negative) = ("-", true) \/ (sign, negative) = ("+", false) \/
  (sign, negative) = (EmptyString, false) ->
  skip_spaces before = EmptyString ->
  skip_spaces after = EmptyString ->
  int4in (before ++ sign ++ NilZero.string_of_uint d ++ after) =
  if 2147483648 <? Z.of_uint d then
    throw (integer_out_of_range (before ++ sign ++ NilZero.string_of_uint d ++ after))
  else if negb negative && (Z.of_uint d =? 2147483648) then
    throw (integer_out_of_range (before ++ sign ++ NilZero.string_of_uint d ++ after))
  else inr (if negative then - Z.of_uint d else Z.of_uint d).
Proof.
  intros Hsign Hbefore Hafter.
  destruct (printed_digits d) as (Hp & Hread & Hval & Hskip & c & rest & Hc & Hm & Hpl & Hsp).
  unfold int4in.
  rewrite (skip_spaces_app _ _ Hbefore).
  assert (Hparts :
    let t := skip_spaces (sign ++ NilZero.string_of_uint d ++ after) in
    match t with
    | String c rest =>
        if (c =? "-")%char then (true, rest)
        else if (c =? "+")%char then (false, rest)
        else (false, t)
    | EmptyString => (false, t)
    end = (negative, NilZero.string_of_uint d ++ after)).
  { destruct Hsign as [H | [H | H]]; injection H as -> ->.
    - reflexivity.
    - reflexivity.
    - cbn [append]. rewrite Hc. cbn [append skip_spaces]. rewrite Hsp, Hm, Hpl.
      reflexivity. }
  cbv zeta in Hparts. rewrite Hparts.
  rewrite Hp at 1. rewrite (leading_digits_printed _ _ Hafter).
  rewrite Hread, Hafter, Hval. cbn [negb String.eqb].
  generalize (before ++ sign ++ NilZero.string_of_uint d ++ after). intros s.
  cbv zeta. reflexivity.
Qed.

Lemma append_empty (s : string) : s ++ EmptyString = s.
Proof. induction s as [ | c s IH]; simpl; [ | rewrite IH]; reflexivity. Qed.

Lemma of_uint_pos (p : positive) : Z.of_uint (Pos.to_uint p) = Z.pos p.
Proof. exact (DecimalZ.of_to (Z.pos p)). Qed.

(** The sign and the digits of [toString]. *)
Lemma toString_parts (z : Z) :
  exists d, Z.of_uint d = Z.abs z /\
            toString z = (if z <? 0 then "-" else EmptyString) ++ NilZero.string_of_uint d.
Proof.
  destruct z as [ | p | p].
  - exists (Decimal.D0 Decimal.Nil). split; reflexivity.
  - exists (Pos.to_uint p). split; [apply of_uint_pos | reflexivity].
  - exists (Pos.to_uint p). split; [apply of_uint_pos | reflexivity].
Qed.

(** The decimal text of an integer, with blanks around it, read back. *)
Lemma int4in_toString_blanks (z : Z) (before after : string) :
  skip_spaces before = EmptyString ->
  skip_spaces after = EmptyString ->
  int4in (before ++ toString z ++ after) =
  if (-2147483648 <=? z) && (z <=? 2147483647) then inr z
  else throw (integer_out_of_range (before ++ toString z ++ after)).
Proof.
  intros Hb Ha. destruct (toString_parts z) as (d & Hd & ->).
  destruct (Z.ltb_spec z 0) as [Hneg | Hpos].
  - replace (before ++ ("-" ++ NilZero.string_of_uint d) ++ after)
      with (before ++ "-" ++ NilZero.string_of_uint d ++ after) by reflexivity.
    rewrite (int4in_digits d "-" true before after (or_introl eq_refl) Hb Ha).
    rewrite Hd. cbn [negb andb].
    destruct (Z.ltb_spec 2147483648 (Z.abs z));
      destruct (Z.leb_spec (-2147483648) z); destruct (Z.leb_spec z 2147483647);
      cbn [andb]; try lia; try reflexivity.
    f_equal. lia.
  - replace (before ++ (EmptyString ++ NilZero.string_of_uint d) ++ after)
      with (before ++ EmptyString ++ NilZero.string_of_uint d ++ after) by reflexivity.
    rewrite (int4in_digits d EmptyString false before after
               (or_intror (or_intror eq_refl)) Hb Ha).
    rewrite Hd. cbn [negb andb].
    destruct (Z.ltb_spec 2147483648 (Z.abs z));
      destruct (Z.eqb_spec (Z.abs z) 2147483648);
      destruct (Z.leb_spec (-2147483648) z); destruct (Z.leb_spec z 2147483647);
      cbn [andb]; try lia; try reflexivity.
    f_equal. lia.
Qed.

Lemma int4in_toString (z : Z) :
  int4in (toString z) =
  if (-2147483648 <=? z) && (z <=? 2147483647) then inr z
  else throw (integer_out_of_range (toString z)).
Proof.
  pose proof (int4in_toString_blanks z EmptyString EmptyString eq_refl eq_refl) as H.
  cbn [append] in H. rewrite append_empty in H. exact H.
Qed.


(** ** Parameters *)

Lemma truthy_prepareValue (lib : library) (v : jsval) :
  truthy v = true -> exists s, prepareValue lib v = Some s.
Proof.
  destruct v; simpl; intros H; try discriminate; eauto.
  destruct (Z.abs n <? 1000000000000000000000); eauto.
Qed.

Lemma array_has_no_field (rows : list jsval) (name : string) :
  (name =? "length")%string = false -> get_prop (JArr rows) name = JUndefined.
Proof. intros H. simpl. rewrite H. reflexivity. Qed.

(** ** The auth service *)

Section AuthService.

Variable lib : library.
Variable env_JWT_SECRET : option string.

Lemma register_catch_status (err : js_error) :
  status (register_catch err) <> 200.
Proof.
  unfold register_catch. destruct (includes (message err) "duplicate");
    simpl; discriminate.
Qed.

(** The response of a handler that got hold of [result.rows] itself
    instead of its first row. *)
Lemma auth_response_of_rows (rows : list jsval) (now : Z) :
  auth_response lib env_JWT_SECRET (JArr rows) now =
  json_ok (JObj [("access_token",
                  JStr (jwt_sign lib env_JWT_SECRET (JObj [("sub", JUndefined)]) now));
                 ("token_type", JStr "bearer");
                 ("user", JObj [("id", JUndefined); ("email", JUndefined)])]).
Proof. reflexivity. Qed.

(** Registration of a fresh email: the row is inserted with the next id of
    the sequence, and the answer is [auth_response] of the returned rows. *)
Lemma register_fresh_email (req : request) (now : Z) (db : pool) (e p : string) :
  fault db = None ->
  get_prop (req_body req) "email" = JStr e -> e <> EmptyString ->
  get_prop (req_body req) "password" = JStr p -> p <> EmptyString ->
  existsb (fun u => u_id u =? users_id_seq db + 1) (users db) = false ->
  existsb (fun u => (u_email u =? e)%string) (users db) = false ->
  register lib env_JWT_SECRET req now db =
  (auth_response lib env_JWT_SECRET
     (JArr [JObj [("id", JNum (users_id_seq db + 1)); ("email", JStr e)]]) now,
   with_users db
     (users db ++ [mk_user (users_id_seq db + 1) e (bcrypt_hash lib p) (clock db)])%list
     (users_id_seq db + 1)).
Proof.
  intros Hf He He' Hp Hp' Hid Hfresh.
  unfold register. rewrite He, Hp. simpl.
  destruct (String.eqb_spec e EmptyString) as [? | _]; [contradiction | ].
  destruct (String.eqb_spec p EmptyString) as [? | _]; [contradiction | ].
  simpl. rewrite pool_query_available by assumption.
  simpl. rewrite Hid, Hfresh. reflexivity.
Qed.

(** Registration of an email the store already holds: a conflict, whether
    the store reports it on the email or, before that, on the key. *)
Lemma register_known_email (req : request) (now : Z) (db : pool) (e p : string) :
  fault db = None ->
  get_prop (req_body req) "email" = JStr e -> e <> EmptyString ->
  get_prop (req_body req) "password" = JStr p -> p <> EmptyString ->
  existsb (fun u => (u_email u =? e)%string) (users db) = true ->
  register lib env_JWT_SECRET req now db =
  (json_error 400 "Email already exists",
   with_users db (users db) (users_id_seq db + 1)).
Proof.
  intros Hf He He' Hp Hp' Hknown.
  unfold register. rewrite He, Hp. simpl.
  destruct (String.eqb_spec e EmptyString) as [? | _]; [contradiction | ].
  destruct (String.eqb_spec p EmptyString) as [? | _]; [contradiction | ].
  simpl. rewrite pool_query_available by assumption.
  simpl.
  destruct (existsb (fun u => u_id u =? users_id_seq db + 1) (users db));
    [reflexivity | ].
  rewrite Hknown. reflexivity.
Qed.

End AuthService.

Lemma filter_none {A : Type} (f : A -> bool) (l : list A) :
  (forall x, In x l -> f x = false) -> filter f l = [].
Proof.
  induction l as [ | a l IH]; intros H; simpl.
  - reflexivity.
  - rewrite (H a (or_introl eq_refl)). apply IH.
    intros x Hx. apply H. right. exact Hx.
Qed.

Lemma filter_some {A : Type} (f : A -> bool) (l : list A) (x : A) :
  In x l -> f x = true -> exists y rest, filter f l = y :: rest.
Proof.
  intros Hin Hf.
  assert (Hx : In x (filter f l)) by (apply filter_In; split; assumption).
  destruct (filter f l) as [ | y rest]; [contradiction | eauto].
Qed.

Lemma compareSync_undefined (lib : library) (password : jsval) :
  exists err, compareSync lib password JUndefined = inl err.
Proof. destruct password; simpl; eauto. Qed.

(** C3 (the code departs from it).  Whenever registration answers 200, the
    token it returns was signed for the payload whose [sub] is [undefined],
    and the user summary has [undefined] for both [id] and [email]: the
    handler reads [id] and [email] off the array [result.rows], not off the
    inserted row.  The password hash is not in the response. *)
Theorem register_success_response :
  forall (lib : library) (env_JWT_SECRET : option string)
         (req : request) (now : Z) (db : pool),
    status (fst (register lib env_JWT_SECRET req now db)) = 200 ->
    body (fst (register lib env_JWT_SECRET req now db)) =
    JObj [("access_token",
           JStr (jwt_sign lib env_JWT_SECRET (JObj [("sub", JUndefined)]) now));
          ("token_type", JStr "bearer");
          ("user", JObj [("id", JUndefined); ("email", JUndefined)])].
Proof.
  intros lib env req now db. unfold register.
  destruct (negb (truthy (get_prop (req_body req) "email"))
            || negb (truthy (get_prop (req_body req) "password"))).
  - simpl. discriminate.
  - destruct (hashSync lib (get_prop (req_body req) "password")) as [err | h].
    + simpl. intros H. destruct (register_catch_status err H).
    + destruct (pool_query lib InsertUser _ db) as [[err | rows] db'].
      * simpl. intros H. destruct (register_catch_status err H).
      * intros _. simpl fst. rewrite auth_response_of_rows. reflexivity.
Qed.

(** The first registration on an empty store: user 1 is created, and the
    response names no user. *)
Lemma register_success_response_witness :
  status (fst (register sample_library None (register_request "a@x.com" "pw1") 0
                 empty_store)) = 200 /\
  snd (register sample_library None (register_request "a@x.com" "pw1") 0 empty_store)
  = one_user_store /\
  body (fst (register sample_library None (register_request "a@x.com" "pw1") 0 empty_store))
  = JObj [("access_token", JStr "token-for-nobody");
          ("token_type", JStr "bearer");
          ("user", JObj [("id", JUndefined); ("email", JUndefined)])].
Proof.
  split; [reflexivity | split; [reflexivity | ]].
  apply (register_success_response sample_library None
           (register_request "a@x.com" "pw1") 0 empty_store).
  reflexivity.
Defined.

(** C4, as amended.  When the insert of a registration throws, the answer
    is 400 [Email already exists] exactly when the message of the error
    contains [duplicate], and 500 [Registration failed] otherwise. *)
Theorem register_failure_by_message :
  forall (lib : library) (env_JWT_SECRET : option string)
         (req : request) (now : Z) (db : pool) (p : string) (err : js_error),
    truthy (get_prop (req_body req) "email") = true ->
    get_prop (req_body req) "password" = JStr p ->
    p <> EmptyString ->
    fst (pool_query lib InsertUser
           [get_prop (req_body req) "email"; JStr (bcrypt_hash lib p)] db) = inl err ->
    fst (register lib env_JWT_SECRET req now db) =
    if includes (message err) "duplicate"
    then json_error 400 "Email already exists"
    else json_error 500 "Registration failed".
Proof.
  intros lib env req now db p err Hemail Hp Hp' Hq.
  unfold register. rewrite Hemail, Hp. simpl.
  destruct (String.eqb_spec p EmptyString) as [? | _]; [contradiction | ].
  simpl.
  destruct (pool_query lib InsertUser _ db) as [[err' | rows] db'];
    simpl in Hq; [ | discriminate].
  injection Hq as ->. reflexivity.
Qed.

(** A second registration of the same email: the store raises its
    uniqueness violation, whose message contains [duplicate]. *)
Lemma register_failure_by_message_witness :
  fst (pool_query sample_library InsertUser [JStr "a@x.com"; JStr "hash:pw1"]
         one_user_store)
  = inl (unique_violation "users_email_key") /\
  fst (register sample_library None (register_request "a@x.com" "pw1") 0
         one_user_store)
  = json_error 400 "Email already exists".
Proof.
  split; [reflexivity | ].
  apply (register_failure_by_message sample_library None
           (register_request "a@x.com" "pw1") 0 one_user_store
           "pw1" (unique_violation "users_email_key")).
  - reflexivity.
  - reflexivity.
  - discriminate.
  - reflexivity.
Defined.

(** C4, as stated, fails.  A failure that is not the email-uniqueness
    violation is answered as a conflict because its message contains
    [duplicate]; the email-uniqueness violation itself is answered as an
    internal error when its message does not. *)
Lemma register_conflict_counterexample :
  (email_uniqueness_violation (unique_violation "users_pkey") = false /\
   register sample_library None (register_request "a@x.com" "pw1") 0 users_pkey_store
   = (json_error 400 "Email already exists", users_pkey_store)) /\
  (email_uniqueness_violation translated_violation = true /\
   register sample_library None (register_request "a@x.com" "pw1") 0 translated_store
   = (json_error 500 "Registration failed", translated_store)).
Proof. repeat split. Qed.

(** C5 (the code departs from it).  For a login with non-empty email and
    password on an available store, the two failure cases are answered
    differently: when a user with that email exists the handler passes
    [undefined] to [compareSync] as the hash (it reads [password_hash] off
    the array [result.rows]), which throws, and the answer is 500
    [Login failed], whatever the password; when no user has that email the
    answer is 401 [Invalid credentials]. *)
Theorem login_known_email_differs :
  forall (lib : library) (env_JWT_SECRET : option string)
         (req : request) (now : Z) (db : pool),
    fault db = None ->
    truthy (get_prop (req_body req) "email") = true ->
    truthy (get_prop (req_body req) "password") = true ->
    ((exists u, In u (users db) /\
                prepareValue lib (get_prop (req_body req) "email") = Some (u_email u)) ->
     login lib env_JWT_SECRET req now db = (json_error 500 "Login failed", db)) /\
    ((forall u, In u (users db) ->
                prepareValue lib (get_prop (req_body req) "email") <> Some (u_email u)) ->
     login lib env_JWT_SECRET req now db = (json_error 401 "Invalid credentials", db)).
Proof.
  intros lib env req now db Hf Hemail Hpassword.
  unfold login. rewrite Hemail, Hpassword. simpl.
  rewrite pool_query_available by assumption. simpl.
  destruct (truthy_prepareValue lib _ Hemail) as [e He]. rewrite He.
  split.
  - intros [u [Hin Hu]]. injection Hu as ->.
    destruct (filter_some (fun u0 => (u_email u0 =? u_email u)%string)
                (users db) u Hin (String.eqb_refl _)) as [y [rest Hy]].
    simpl. rewrite Hy. simpl map. simpl length.
    replace (Z.of_nat (S (length (map user_json rest))) =? 0) with false
      by (symmetry; apply Z.eqb_neq; lia).
    destruct (compareSync_undefined lib (get_prop (req_body req) "password"))
      as [err Herr].
    rewrite Herr. reflexivity.
  - intros Hnone.
    rewrite filter_none.
    + reflexivity.
    + intros u Hin. simpl. apply String.eqb_neq. intros E.
      apply (Hnone u Hin). rewrite E. reflexivity.
Qed.

(** The registered user logs in with a wrong password, and then with the
    right one: both are answered 500; an unknown email is answered 401. *)
Lemma login_known_email_differs_witness :
  login sample_library None (register_request "a@x.com" "wrong") 0 one_user_store
  = (json_error 500 "Login failed", one_user_store) /\
  login sample_library None (register_request "a@x.com" "pw1") 0 one_user_store
  = (json_error 500 "Login failed", one_user_store) /\
  login sample_library None (register_request "b@x.com" "pw1") 0 one_user_store
  = (json_error 401 "Invalid credentials", one_user_store).
Proof.
  split; [ | split].
  - apply (login_known_email_differs sample_library None
             (register_request "a@x.com" "wrong") 0 one_user_store);
      try reflexivity.
    exists (mk_user 1 "a@x.com" "hash:pw1" 1000). split; [left | ]; reflexivity.
  - reflexivity.
  - apply (login_known_email_differs sample_library None
             (register_request "b@x.com" "pw1") 0 one_user_store);
      try reflexivity.
    intros u [<- | []]. discriminate.
Defined.

(** ** The task service *)

(** *** ORDER BY created_at DESC *)





(** *** GET /api/tasks *)




(** *** Rows addressed by id and owner *)

Lemma owned_task_iff (i u : Z) (t : task_row) :
  owned_task (Some i) (Some u) t = true <-> t_id t = i /\ t_user_id t = u.
Proof.
  unfold owned_task, eq_integer. rewrite andb_true_iff, !Z.eqb_eq. reflexivity.
Qed.

Lemma owned_task_false_iff (i u : Z) (t : task_row) :
  owned_task (Some i) (Some u) t = false <-> ~ (t_id t = i /\ t_user_id t = u).
Proof.
  rewrite <- owned_task_iff. destruct (owned_task (Some i) (Some u) t).
  - split; [discriminate | intros H; exfalso; apply H; reflexivity].
  - split; [intros _ H; discriminate | reflexivity].
Qed.


Section TaskService.

Variable lib : library.

Lemma get_task_eq (req : request) (db : pool) (i u : Z) :
  fault db = None ->
  as_integer lib (params_id req) = inr (Some i) ->
  as_integer lib (user_id req) = inr (Some u) ->
  get_task lib req db =
  match filter (owned_task (Some i) (Some u)) (tasks db) with
  | [] => (json_error 404 "Task not found", db)
  | rows => (json_ok (JArr (map task_json rows)), db)
  end.
Proof.
  intros Hf Hi Hu. unfold get_task.
  rewrite pool_query_available by assumption.
  unfold execute, integer_param. simpl. rewrite Hi, Hu. simpl.
  destruct (filter (owned_task (Some i) (Some u)) (tasks db)); reflexivity.
Qed.



End TaskService.




(** *** PATCH /api/tasks/:id: the statement the handler builds *)

Lemma collect_updates_eq (body : jsval) :
  collect_updates body =
  (numbered 1 (map fst (patch_fields body)),
   map snd (patch_fields body),
   S (length (patch_fields body))).
Proof.
  unfold collect_updates, patch_fields, add_update. simpl.
  destruct (not_undefined (get_prop body "title"));
    destruct (not_undefined (get_prop body "description"));
    destruct (not_undefined (get_prop body "category"));
    destruct (not_undefined (get_prop body "priority"));
    destruct (not_undefined (get_prop body "status"));
    reflexivity.
Qed.

Lemma numbered_length (n : nat) (cols : list column) :
  length (numbered n cols) = length cols.
Proof.
  revert n. induction cols as [ | c cols IH]; intros n; simpl.
  - reflexivity.
  - rewrite IH. reflexivity.
Qed.

Section UpdateStatement.

Variable lib : library.

Lemma param_at (pre : list jsval) (v : jsval) (tail : list jsval) :
  param (pre ++ v :: tail)%list (S (length pre)) = inr v.
Proof.
  unfold param. induction pre as [ | x pre IH]; simpl.
  - reflexivity.
  - exact IH.
Qed.

(** Each SET clause of the statement is bound to the value of its own
    field. *)
Lemma bind_updates_numbered (fields : list (column * jsval)) :
  forall pre tail : list jsval,
    bind_updates lib
      (numbered (S (length pre)) (map fst fields) ++ [SetUpdatedAt])%list
      (pre ++ map snd fields ++ tail)%list
    = inr (bound lib fields ++ [AssignUpdatedAt])%list.
Proof.
  induction fields as [ | [c v] fields IH]; intros pre tail; simpl.
  - reflexivity.
  - unfold text_param at 1. rewrite param_at. simpl.
    specialize (IH (pre ++ [v])%list tail).
    rewrite length_app, Nat.add_1_r, <- app_assoc in IH. simpl in IH.
    rewrite IH. reflexivity.
Qed.

Lemma integer_param_at (pre : list jsval) (v : jsval) (tail : list jsval) :
  integer_param lib (pre ++ v :: tail)%list (S (length pre)) = as_integer lib v.
Proof. unfold integer_param. rewrite param_at. reflexivity. Qed.

(** The UPDATE the handler sends for the fields [fields], on the rows
    with the id and the owner of the request. *)
Lemma execute_update (fields : list (column * jsval)) (id uid : jsval) (db : pool) :
  execute lib
    (UpdateTask (numbered 1 (map fst fields) ++ [SetUpdatedAt])%list
                (S (length fields)) (S (length fields) + 1))
    ((map snd fields ++ [id]) ++ [uid])%list db
  = match (i <- as_integer lib id ;;
           u <- as_integer lib uid ;;
           update_rows (owned_task i u)
             (assign_all (bound lib fields ++ [AssignUpdatedAt])%list (clock db))
             (tasks db))
    with
    | inl err => (inl err, db)
    | inr (table, returned) => (inr (map task_json returned), with_tasks db table)
    end.
Proof.
  assert (Hb : bind_updates lib
                 (numbered 1 (map fst fields) ++ [SetUpdatedAt])%list
                 ((map snd fields ++ [id]) ++ [uid])%list
               = inr (bound lib fields ++ [AssignUpdatedAt])%list).
  { rewrite <- app_assoc. exact (bind_updates_numbered fields [] [id; uid]). }
  assert (Hi : integer_param lib ((map snd fields ++ [id]) ++ [uid])%list
                 (S (length fields)) = as_integer lib id).
  { rewrite <- app_assoc. rewrite <- (length_map snd fields).
    apply integer_param_at. }
  assert (Hu : integer_param lib ((map snd fields ++ [id]) ++ [uid])%list
                 (S (length fields) + 1) = as_integer lib uid).
  { replace (S (length fields) + 1)%nat
      with (S (length (map snd fields ++ [id])%list))
      by (rewrite length_app, length_map; simpl; lia).
    apply integer_param_at. }
  unfold execute. rewrite Hb, Hi, Hu. reflexivity.
Qed.

(** The handler, as a function of the fields the body carries. *)
Lemma update_task_eq (req : request) (db : pool) :
  update_task lib req db =
  match patch_fields (req_body req) with
  | [] => (json_error 400 "No updates provided", db)
  | _ :: _ =>
      match fault db with
      | Some _ => (json_error 500 "Update failed", db)
      | None =>
          match (i <- as_integer lib (params_id req) ;;
                 u <- as_integer lib (user_id req) ;;
                 update_rows (owned_task i u)
                   (assign_all (bound lib (patch_fields (req_body req))
                                ++ [AssignUpdatedAt])%list (clock db))
                   (tasks db))
          with
          | inl _ => (json_error 500 "Update failed", db)
          | inr (table, []) => (json_error 404 "Task not found", with_tasks db table)
          | inr (table, returned) =>
              (json_ok (JArr (map task_json returned)), with_tasks db table)
          end
      end
  end.
Proof.
  unfold update_task. rewrite collect_updates_eq.
  rewrite numbered_length, length_map.
  destruct (patch_fields (req_body req)) as [ | f fields].
  - reflexivity.
  - change (Nat.eqb (length (f :: fields)) 0) with false. cbv iota.
    unfold pool_query. destruct (fault db) as [err | ]; [reflexivity | ].
    rewrite execute_update.
    destruct (i <- as_integer lib (params_id req) ;;
              u <- as_integer lib (user_id req) ;;
              update_rows (owned_task i u)
                (assign_all (bound lib (f :: fields) ++ [AssignUpdatedAt])%list
                   (clock db))
                (tasks db)) as [e | [table returned]];
      [reflexivity | ].
    destruct returned; reflexivity.
Qed.

End UpdateStatement.

(** *** PATCH /api/tasks/:id: the rows after the update *)


Lemma update_rows_inv (matches : task_row -> bool)
    (change : task_row -> result task_row) :
  (forall t t', matches t = true -> change t = inr t' -> matches t' = true) ->
  forall (ts table returned : list task_row),
    update_rows matches change ts = inr (table, returned) ->
    Forall2 (fun t t' => if matches t then change t = inr t' else t' = t) ts table /\
    returned = filter matches table.
Proof.
  intros Hkeep. induction ts as [ | t ts IH]; intros table returned H; simpl in H.
  - injection H as <- <-. split; [constructor | reflexivity].
  - destruct (matches t) eqn:Hm.
    + destruct (change t) as [e | t'] eqn:Hc; simpl in H; [discriminate | ].
      destruct (update_rows matches change ts) as [e | [tb rt]]; simpl in H;
        [discriminate | ].
      injection H as <- <-. destruct (IH tb rt eq_refl) as [HF Hr].
      split.
      * constructor; [rewrite Hm; exact Hc | exact HF].
      * simpl. rewrite (Hkeep t t' Hm Hc). rewrite Hr. reflexivity.
    + destruct (update_rows matches change ts) as [e | [tb rt]]; simpl in H;
        [discriminate | ].
      injection H as <- <-. destruct (IH tb rt eq_refl) as [HF Hr].
      split.
      * constructor; [rewrite Hm; reflexivity | exact HF].
      * simpl. rewrite Hm. exact Hr.
Qed.

Lemma update_rows_fail (matches : task_row -> bool)
    (change : task_row -> result task_row) (err : js_error) (ts : list task_row) :
  (forall t, matches t = true -> change t = inl err) ->
  (exists t, In t ts /\ matches t = true) ->
  update_rows matches change ts = inl err.
Proof.
  intros Hfail. induction ts as [ | t ts IH]; intros [x [Hin Hx]].
  - contradiction.
  - simpl. destruct (matches t) eqn:Hm.
    + rewrite (Hfail t Hm). reflexivity.
    + destruct Hin as [-> | Hin]; [congruence | ].
      rewrite IH by (exists x; split; assumption). reflexivity.
Qed.

Lemma update_rows_total (matches : task_row -> bool)
    (change : task_row -> result task_row) (ts : list task_row) :
  (forall t, exists t', change t = inr t') ->
  exists table returned,
    update_rows matches change ts = inr (table, returned) /\
    ((exists t, In t ts /\ matches t = true) -> returned <> []).
Proof.
  intros Hok. induction ts as [ | t ts IH]; simpl.
  - exists [], []. split; [reflexivity | ]. intros [t [[] _]].
  - destruct IH as (table & returned & -> & Hne).
    destruct (matches t) eqn:Hm.
    + destruct (Hok t) as [t' ->]. simpl.
      exists (t' :: table), (t' :: returned). split; [reflexivity | discriminate].
    + simpl. exists (t :: table), returned. split; [reflexivity | ].
      intros [x [[<- | Hin] Hx]]; [congruence | ].
      apply Hne. exists x. split; assumption.
Qed.

(** An UPDATE that returns no row has changed none. *)
Lemma update_rows_none_returned (matches : task_row -> bool)
    (change : task_row -> result task_row) (ts table : list task_row) :
  update_rows matches change ts = inr (table, []) -> table = ts.
Proof.
  revert table. induction ts as [ | t ts IH]; intros table H; simpl in H.
  - injection H as <-. reflexivity.
  - destruct (matches t).
    + destruct (change t) as [e | t']; simpl in H; [discriminate | ].
      destruct (update_rows matches change ts) as [e | [tb rt]]; simpl in H;
        discriminate.
    + destruct (update_rows matches change ts) as [e | [tb rt]]; simpl in H;
        [discriminate | ].
      injection H as <- ->. f_equal. apply IH. reflexivity.
Qed.

Lemma Forall2_In_r {A B : Type} (R : A -> B -> Prop) (l : list A) (l' : list B) :
  Forall2 R l l' -> forall y, In y l' -> exists x, In x l /\ R x y.
Proof.
  induction 1 as [ | a b l l' Hab HF IH]; intros y Hy.
  - contradiction.
  - destruct Hy as [<- | Hy].
    + exists a. split; [left; reflexivity | exact Hab].
    + destruct (IH y Hy) as [x [Hx HR]]. exists x. split; [right | ]; assumption.
Qed.

Section UpdatedRows.

Variable lib : library.

(** The SET list built from a body performs the sparse merge. *)
Lemma assign_all_patched (body : jsval) (now : Z) (t t' : task_row) :
  assign_all (bound lib (patch_fields body) ++ [AssignUpdatedAt])%list now t = inr t' ->
  patched lib body now t t'.
Proof.
  unfold patch_fields, patched, patch_value. simpl.
  destruct (not_undefined (get_prop body "title"));
    destruct (not_undefined (get_prop body "description"));
    destruct (not_undefined (get_prop body "category"));
    destruct (not_undefined (get_prop body "priority"));
    destruct (not_undefined (get_prop body "status"));
    simpl;
    try (destruct (prepareValue lib (get_prop body "title")); simpl;
         [ | discriminate]);
    intros H; injection H as <-; simpl; repeat split.
Qed.

(** Without a null title, the SET list applies to every row. *)
Lemma assign_all_total (body : jsval) (now : Z) (t : task_row) :
  get_prop body "title" <> JNull ->
  exists t',
    assign_all (bound lib (patch_fields body) ++ [AssignUpdatedAt])%list now t = inr t'.
Proof.
  intros Htitle. unfold patch_fields. simpl.
  destruct (get_prop body "title") as [ | | b | n | x | d | items | props];
    try contradiction; simpl;
    try destruct (Z.abs n <? 1000000000000000000000);
    destruct (not_undefined (get_prop body "description"));
    destruct (not_undefined (get_prop body "category"));
    destruct (not_undefined (get_prop body "priority"));
    destruct (not_undefined (get_prop body "status"));
    simpl; eexists; reflexivity.
Qed.

(** A null title cannot be stored. *)
Lemma assign_all_null_title (body : jsval) (now : Z) (t : task_row) :
  get_prop body "title" = JNull ->
  assign_all (bound lib (patch_fields body) ++ [AssignUpdatedAt])%list now t
  = inl (not_null_violation "title" "tasks").
Proof. intros H. unfold patch_fields. rewrite H. reflexivity. Qed.

Lemma patched_owned (body : jsval) (now : Z) (i u : Z) (t t' : task_row) :
  patched lib body now t t' ->
  owned_task (Some i) (Some u) t' = owned_task (Some i) (Some u) t.
Proof.
  intros H. unfold patched in H.
  destruct H as (_ & _ & _ & _ & _ & _ & Hid & Hu & _).
  unfold owned_task. rewrite Hid, Hu. reflexivity.
Qed.

(** The UPDATE on the rows of task [i] owned by [u]: every such row is
    merged with the patch, every other row is kept, and the rows returned
    are the merged ones. *)
Lemma update_rows_patched (body : jsval) (now : Z) (i u : Z)
    (ts table returned : list task_row) :
  update_rows (owned_task (Some i) (Some u))
    (assign_all (bound lib (patch_fields body) ++ [AssignUpdatedAt])%list now) ts
  = inr (table, returned) ->
  Forall2 (fun t t' => if owned_task (Some i) (Some u) t
                       then patched lib body now t t' else t' = t) ts table /\
  returned = filter (owned_task (Some i) (Some u)) table.
Proof.
  intros H. apply update_rows_inv in H.
  - destruct H as [HF Hr]. split; [ | exact Hr].
    eapply Forall2_impl; [ | exact HF].
    intros t t'. simpl. destruct (owned_task (Some i) (Some u) t).
    + apply assign_all_patched.
    + trivial.
  - intros t t' Hm Hc. apply assign_all_patched in Hc.
    rewrite (patched_owned _ _ _ _ _ _ Hc). exact Hm.
Qed.

(** What a 200 of the handler tells. *)
Lemma update_task_ok_inv (req : request) (db : pool) (i u : Z) :
  as_integer lib (params_id req) = inr (Some i) ->
  as_integer lib (user_id req) = inr (Some u) ->
  status (fst (update_task lib req db)) = 200 ->
  exists table returned,
    update_rows (owned_task (Some i) (Some u))
      (assign_all (bound lib (patch_fields (req_body req)) ++ [AssignUpdatedAt])%list
         (clock db)) (tasks db) = inr (table, returned) /\
    returned <> [] /\
    update_task lib req db =
    (json_ok (JArr (map task_json returned)), with_tasks db table).
Proof.
  intros Hi Hu. rewrite update_task_eq.
  destruct (patch_fields (req_body req)) as [ | f fields]; [discriminate | ].
  destruct (fault db); [discriminate | ].
  rewrite Hi, Hu. simpl bind.
  destruct (update_rows _ _ (tasks db)) as [e | [table returned]];
    [discriminate | ].
  destruct returned as [ | r returned]; [discriminate | ].
  intros _. exists table, (r :: returned).
  split; [reflexivity | split; [discriminate | reflexivity]].
Qed.

End UpdatedRows.



(** C7.  An update whose body carries none of the recognized fields is
    answered 400 [No updates provided], and the store is as it was. *)
Theorem update_task_empty_patch :
  forall (lib : library) (req : request) (db : pool),
    get_prop (req_body req) "title" = JUndefined ->
    get_prop (req_body req) "description" = JUndefined ->
    get_prop (req_body req) "category" = JUndefined ->
    get_prop (req_body req) "priority" = JUndefined ->
    get_prop (req_body req) "status" = JUndefined ->
    update_task lib req db = (json_error 400 "No updates provided", db).
Proof.
  intros lib req db Ht Hd Hc Hp Hs.
  rewrite update_task_eq. unfold patch_fields.
  rewrite Ht, Hd, Hc, Hp, Hs. reflexivity.
Qed.

(** A body with an unrecognized field only. *)
Lemma update_task_empty_patch_witness :
  update_task sample_library
    (task_request 1 "1" (JObj [("ai_analyzed", JBool true)])) sample_store
  = (json_error 400 "No updates provided", sample_store).
Proof.
  apply (update_task_empty_patch sample_library
           (task_request 1 "1" (JObj [("ai_analyzed", JBool true)])) sample_store);
    reflexivity.
Defined.

(** *** Explicit null *)

Lemma patched_column (lib : library) (body : jsval) (now : Z) (t t' : task_row)
    (c : column) :
  patched lib body now t t' ->
  column_value c t' = patch_value lib (get_prop body (column_name c)) (column_value c t).
Proof.
  intros (Ht & Hd & Hc & Hp & Hs & _). destruct c; simpl; assumption.
Qed.

Lemma null_field_present (body : jsval) (c : column) :
  get_prop body (column_name c) = JNull -> In (c, JNull) (patch_fields body).
Proof.
  intros H. unfold patch_fields. apply filter_In. split; [ | reflexivity].
  destruct c; simpl in H; rewrite H; simpl; auto 6.
Qed.

(** C10, as amended.  In an update of task [i] by owner [u]:
    - a recognized field that is [null] is present in the statement, and
      the request is not refused as an empty patch;
    - when the update is answered 200, on every row of the task a column
      whose field is [null] holds NULL and a column whose field is
      [undefined] holds its prior value;
    - a [null] title is refused by the store wherever a row matches
      ([title] is NOT NULL): the answer is 500 [Update failed] and the
      store is as it was;
    - a [null] description, category, priority or status is stored: when
      the patch carries no [null] title, its values are values the columns
      take, the store runs the statement and a row matches, the update is
      answered 200, the column holds NULL on every row of the task, and
      every other row is as it was. *)
Theorem update_task_explicit_null :
  forall (lib : library) (req : request) (db : pool) (i u : Z),
    as_integer lib (params_id req) = inr (Some i) ->
    as_integer lib (user_id req) = inr (Some u) ->
    (forall c, get_prop (req_body req) (column_name c) = JNull ->
               In (c, JNull) (patch_fields (req_body req)) /\
               status (fst (update_task lib req db)) <> 400) /\
    (status (fst (update_task lib req db)) = 200 ->
     Forall2 (fun t t' =>
                if owned_task (Some i) (Some u) t then
                  forall c,
                    (get_prop (req_body req) (column_name c) = JNull ->
                     column_value c t' = None) /\
                    (get_prop (req_body req) (column_name c) = JUndefined ->
                     column_value c t' = column_value c t)
                else t' = t)
       (tasks db) (tasks (snd (update_task lib req db)))) /\
    (get_prop (req_body req) "title" = JNull ->
     fault db = None ->
     (exists t, In t (tasks db) /\ owned_task (Some i) (Some u) t = true) ->
     update_task lib req db = (json_error 500 "Update failed", db)) /\
    (forall c,
        get_prop (req_body req) (column_name c) = JNull ->
        get_prop (req_body req) "title" <> JNull ->
        patch_storable lib (req_body req) = true ->
        fault db = None ->
        (exists t, In t (tasks db) /\ owned_task (Some i) (Some u) t = true) ->
        status (fst (update_task lib req db)) = 200 /\
        Forall2 (fun t t' =>
                   if owned_task (Some i) (Some u) t
                   then column_value c t' = None
                   else t' = t)
          (tasks db) (tasks (snd (update_task lib req db)))).
Proof.
  intros lib req db i u Hi Hu.
  assert (Hwhen200 :
    status (fst (update_task lib req db)) = 200 ->
    Forall2 (fun t t' =>
               if owned_task (Some i) (Some u) t then
                 forall c,
                   (get_prop (req_body req) (column_name c) = JNull ->
                    column_value c t' = None) /\
                   (get_prop (req_body req) (column_name c) = JUndefined ->
                    column_value c t' = column_value c t)
               else t' = t)
      (tasks db) (tasks (snd (update_task lib req db)))).
  { intros Hok.
    destruct (update_task_ok_inv lib req db i u Hi Hu Hok)
      as (table & returned & Hrows & _ & Heq).
    rewrite Heq. simpl.
    destruct (update_rows_patched lib _ _ _ _ _ _ _ Hrows) as [HF _].
    eapply Forall2_impl; [ | exact HF].
    intros t t'. simpl. destruct (owned_task (Some i) (Some u) t); [ | trivial].
    intros Hp c. rewrite (patched_column _ _ _ _ _ c Hp).
    split; intros Hc; rewrite Hc; reflexivity. }
  split; [ | split; [exact Hwhen200 | split]].
  - intros c Hc. pose proof (null_field_present _ _ Hc) as Hin.
    split; [exact Hin | ].
    rewrite update_task_eq.
    destruct (patch_fields (req_body req)) as [ | f fields]; [contradiction | ].
    destruct (fault db); [discriminate | ].
    destruct (_ <- as_integer lib (params_id req) ;; _) as [e | [table [ | r rs]]];
      discriminate.
  - intros Htitle Hf Hrow.
    assert (Hfail :
      update_rows (owned_task (Some i) (Some u))
        (assign_all (bound lib (patch_fields (req_body req)) ++ [AssignUpdatedAt])%list
           (clock db)) (tasks db)
      = inl (not_null_violation "title" "tasks")).
    { apply update_rows_fail; [ | exact Hrow].
      intros t _. apply assign_all_null_title. exact Htitle. }
    rewrite update_task_eq, Hf, Hi, Hu. cbn [bind]. rewrite Hfail.
    pose proof (null_field_present (req_body req) Title Htitle) as Hin.
    destruct (patch_fields (req_body req)); [contradiction | reflexivity].
  - intros c Hc Htitle _ Hf Hrow.
    assert (Hok : status (fst (update_task lib req db)) = 200).
    { destruct (update_rows_total (owned_task (Some i) (Some u))
                  (assign_all
                     (bound lib (patch_fields (req_body req)) ++ [AssignUpdatedAt])%list
                     (clock db))
                  (tasks db)
                  (fun t => assign_all_total lib (req_body req) (clock db) t Htitle))
        as (table & returned & Hrows & Hne).
      rewrite update_task_eq, Hf, Hi, Hu. cbn [bind]. rewrite Hrows.
      pose proof (null_field_present (req_body req) c Hc) as Hin.
      destruct (patch_fields (req_body req)); [contradiction | ].
      destruct returned; [destruct (Hne Hrow eq_refl) | reflexivity]. }
    split; [exact Hok | ].
    eapply Forall2_impl; [ | exact (Hwhen200 Hok)].
    intros t t'. simpl. destruct (owned_task (Some i) (Some u) t); [ | trivial].
    intros H. apply (H c). exact Hc.
Qed.

(** User 1 clears the priority of task 1; then tries to clear its title. *)
Lemma update_task_explicit_null_witness :
  (status (fst (update_task sample_library
                  (task_request 1 "1" (JObj [("priority", JNull)])) sample_store))
   = 200 /\
   Forall2 (fun t t' => if owned_task (Some 1) (Some 1) t
                        then column_value Priority t' = None
                        else t' = t)
     (tasks sample_store)
     (tasks (snd (update_task sample_library
                    (task_request 1 "1" (JObj [("priority", JNull)])) sample_store)))) /\
  update_task sample_library
    (task_request 1 "1" (JObj [("priority", JNull)])) sample_store
  = (json_ok (JArr [task_json task_1_no_priority]),
     with_tasks sample_store [task_1_no_priority; task_2; task_3]) /\
  update_task sample_library
    (task_request 1 "1" (JObj [("title", JNull)])) sample_store
  = (json_error 500 "Update failed", sample_store).
Proof.
  assert (Hrow : exists t, In t (tasks sample_store) /\
                           owned_task (Some 1) (Some 1) t = true).
  { exists task_1. split; [left | ]; reflexivity. }
  split; [ | split; [reflexivity | ]].
  - apply (proj2 (proj2 (proj2
             (update_task_explicit_null sample_library
                (task_request 1 "1" (JObj [("priority", JNull)])) sample_store 1 1
                eq_refl eq_refl))) Priority).
    + reflexivity.
    + discriminate.
    + reflexivity.
    + reflexivity.
    + exact Hrow.
  - apply (update_task_explicit_null sample_library
             (task_request 1 "1" (JObj [("title", JNull)])) sample_store 1 1
             eq_refl eq_refl).
    + reflexivity.
    + reflexivity.
    + exact Hrow.
Defined.

(** C10, as stated, fails.  User 1 sends [{ title: null }] for task 1, a
    row of theirs: the answer is 500 and the title of the row is what it
    was, not NULL. *)
Lemma update_task_null_title_counterexample :
  get_prop (req_body (task_request 1 "1" (JObj [("title", JNull)]))) "title" = JNull /\
  owned_task (Some 1) (Some 1) task_1 = true /\
  fst (update_task sample_library
         (task_request 1 "1" (JObj [("title", JNull)])) sample_store)
  = json_error 500 "Update failed" /\
  tasks (snd (update_task sample_library
                (task_request 1 "1" (JObj [("title", JNull)])) sample_store))
  = [task_1; task_2; task_3] /\
  t_title task_1 = "buy milk".
Proof. repeat split. Qed.

(** *** A task of another user *)




(** * Further properties of the handlers *)

(** ** What the listing keeps *)

Lemma listed_all (lib : library) (u : Z) (status : jsval) (t : task_row) :
  truthy status = false ->
  (listed lib u status t = true <-> t_user_id t = u).
Proof.
  intros H. unfold listed. rewrite H, andb_true_r. apply Z.eqb_eq.
Qed.

Lemma listed_by_status (lib : library) (u : Z) (s : string) (t : task_row) :
  s <> EmptyString ->
  (listed lib u (JStr s) t = true <-> t_user_id t = u /\ t_status t = Some s).
Proof.
  intros Hs. unfold listed. simpl.
  destruct (String.eqb_spec s EmptyString) as [? | _]; [contradiction | ].
  simpl. rewrite andb_true_iff, Z.eqb_eq.
  destruct (t_status t) as [x | ]; simpl.
  - rewrite String.eqb_eq. split; intros [H1 H2]; split; congruence.
  - split; intros [_ H]; discriminate.
Qed.

(** ** Registration and login *)

(** X1.  Registering twice with the same email, on a store that runs the
    statements, whose sequence is not behind its table and has two ids
    left, with an email and a hash the columns take: the first call
    creates the user, the second is answered 400 [Email already exists]
    and leaves the users as the first call left them.  (The store words
    its violation as [unique_violation] does, in English.) *)
Theorem register_same_email_twice :
  forall (lib : library) (env_JWT_SECRET : option string)
         (req : request) (now now' : Z) (db : pool) (e p : string),
    fault db = None ->
    get_prop (req_body req) "email" = JStr e -> e <> EmptyString ->
    get_prop (req_body req) "password" = JStr p -> p <> EmptyString ->
    storable (Some 255%nat) (Some e) = true ->
    storable (Some 255%nat) (Some (bcrypt_hash lib p)) = true ->
    (forall u, In u (users db) -> u_id u <= users_id_seq db) ->
    has_next (users_id_seq db + 1) = true ->
    existsb (fun u => (u_email u =? e)%string) (users db) = false ->
    status (fst (register lib env_JWT_SECRET req now db)) = 200 /\
    fst (register lib env_JWT_SECRET req now'
           (snd (register lib env_JWT_SECRET req now db)))
    = json_error 400 "Email already exists" /\
    users (snd (register lib env_JWT_SECRET req now'
                  (snd (register lib env_JWT_SECRET req now db))))
    = users (snd (register lib env_JWT_SECRET req now db)).
Proof.
  intros lib env req now now' db e p Hf He He' Hp Hp' _ _ Hseq _ Hfresh.
  rewrite (register_fresh_email lib env req now db e p Hf He He' Hp Hp'
             (next_id_is_free u_id _ _ Hseq) Hfresh).
  split; [reflexivity | ].
  cbn [snd]. erewrite register_known_email.
  - split; reflexivity.
  - exact Hf.
  - exact He.
  - exact He'.
  - exact Hp.
  - exact Hp'.
  - cbn [users with_users]. rewrite existsb_app, orb_true_iff. right.
    simpl. rewrite String.eqb_refl. reflexivity.
Qed.

Lemma register_same_email_twice_witness :
  fst (register sample_library None (register_request "a@x.com" "pw1") 5
         (snd (register sample_library None (register_request "a@x.com" "pw1") 0
                 empty_store)))
  = json_error 400 "Email already exists" /\
  users (snd (register sample_library None (register_request "a@x.com" "pw1") 5
                (snd (register sample_library None (register_request "a@x.com" "pw1") 0
                        empty_store))))
  = [mk_user 1 "a@x.com" "hash:pw1" 1000].
Proof.
  destruct (register_same_email_twice sample_library None
              (register_request "a@x.com" "pw1") 0 5 empty_store "a@x.com" "pw1")
    as (_ & H400 & Husers); try reflexivity; try discriminate.
  - intros u [].
  - split; [exact H400 | rewrite Husers; reflexivity].
Defined.

(** X2.  Registration and login without an email or without a password
    (absent, null or empty) are answered 400, and the store is not
    consulted. *)
Theorem auth_requires_email_and_password :
  forall (lib : library) (env_JWT_SECRET : option string)
         (req : request) (now : Z) (db : pool),
    truthy (get_prop (req_body req) "email") = false \/
    truthy (get_prop (req_body req) "password") = false ->
    register lib env_JWT_SECRET req now db
    = (json_error 400 "Email and password required", db) /\
    login lib env_JWT_SECRET req now db
    = (json_error 400 "Email and password required", db).
Proof.
  intros lib env req now db H. unfold register, login.
  assert (E : negb (truthy (get_prop (req_body req) "email"))
              || negb (truthy (get_prop (req_body req) "password")) = true).
  { destruct H as [H | H]; rewrite H; simpl; [ | apply orb_true_r]; reflexivity. }
  rewrite E. split; reflexivity.
Qed.

Lemma auth_requires_email_and_password_witness :
  register sample_library None (register_request "a@x.com" EmptyString) 0 one_user_store
  = (json_error 400 "Email and password required", one_user_store) /\
  login sample_library None (register_request "a@x.com" EmptyString) 0 one_user_store
  = (json_error 400 "Email and password required", one_user_store).
Proof.
  apply (auth_requires_email_and_password sample_library None
           (register_request "a@x.com" EmptyString) 0 one_user_store).
  right. reflexivity.
Defined.

(** The signing secret is the configured one, and the built-in one when
    none or the empty one is configured. *)
Lemma JWT_SECRET_fallback :
  JWT_SECRET None = "your-secret-key-change-this" /\
  JWT_SECRET (Some EmptyString) = "your-secret-key-change-this" /\
  forall s c, JWT_SECRET (Some (String c s)) = String c s.
Proof. repeat split. Qed.

(** ** Tasks *)


Section CreateTask.

Variable lib : library.

Lemma create_task_eq (req : request) (db : pool) (u : Z) (title : string) :
  fault db = None ->
  as_integer lib (user_id req) = inr (Some u) ->
  existsb (fun r => u_id r =? u) (users db) = true ->
  truthy (get_prop (req_body req) "title") = true ->
  prepareValue lib (get_prop (req_body req) "title") = Some title ->
  existsb (fun r => t_id r =? tasks_id_seq db + 1) (tasks db) = false ->
  create_task lib req db =
  (json_ok (JArr [task_json
                    (mk_task (tasks_id_seq db + 1) u title
                       (prepareValue lib (get_prop (req_body req) "description"))
                       None (Some "MEDIUM") (Some "TODO") None None false
                       (clock db) (clock db))]),
   with_new_task db
     (tasks db ++
      [mk_task (tasks_id_seq db + 1) u title
         (prepareValue lib (get_prop (req_body req) "description"))
         None (Some "MEDIUM") (Some "TODO") None None false
         (clock db) (clock db)])%list
     (tasks_id_seq db + 1)).
Proof.
  intros Hf Hu Huser Htruthy Htitle Hid. unfold create_task.
  rewrite Htruthy. simpl negb. cbv iota.
  rewrite pool_query_available by assumption.
  unfold execute, integer_param, text_param. simpl.
  rewrite Hu. simpl. rewrite Htitle, Hid, Huser. reflexivity.
Qed.

End CreateTask.

(** X3.  [create] for a registered owner and a non-empty title, on a
    store that runs the statement, whose sequence is not behind its table
    and has an id left, with a title and a description the columns take,
    inserts one row, owned by the caller, with the next id, priority
    MEDIUM, status TODO, [ai_analyzed] false, no category and no
    deadlines, and both timestamps at the time of the insert; it answers
    200 with that row. *)
Theorem create_task_inserts_defaults :
  forall (lib : library) (req : request) (db : pool) (u : Z) (title : string),
    fault db = None ->
    as_integer lib (user_id req) = inr (Some u) ->
    existsb (fun r => u_id r =? u) (users db) = true ->
    truthy (get_prop (req_body req) "title") = true ->
    prepareValue lib (get_prop (req_body req) "title") = Some title ->
    storable (Some 255%nat) (Some title) = true ->
    storable None (prepareValue lib (get_prop (req_body req) "description")) = true ->
    (forall t, In t (tasks db) -> t_id t <= tasks_id_seq db) ->
    has_next (tasks_id_seq db) = true ->
    exists row : task_row,
      fst (create_task lib req db) = json_ok (JArr [task_json row]) /\
      tasks (snd (create_task lib req db)) = (tasks db ++ [row])%list /\
      t_id row = tasks_id_seq db + 1 /\
      t_user_id row = u /\
      t_title row = title /\
      t_description row = prepareValue lib (get_prop (req_body req) "description") /\
      t_category row = None /\
      t_priority row = Some "MEDIUM" /\
      t_status row = Some "TODO" /\
      t_suggested_deadline row = None /\
      t_actual_deadline row = None /\
      t_ai_analyzed row = false /\
      t_created_at row = clock db /\
      t_updated_at row = clock db.
Proof.
  intros lib req db u title Hf Hu Huser Htruthy Htitle _ _ Hseq _.
  rewrite (create_task_eq lib req db u title Hf Hu Huser Htruthy Htitle
             (next_id_is_free t_id _ _ Hseq)).
  eexists. repeat split.
Qed.

Lemma create_task_inserts_defaults_witness :
  exists row : task_row,
    fst (create_task sample_library
           (task_request 1 "0" (JObj [("title", JStr "water plants")])) sample_store)
    = json_ok (JArr [task_json row]) /\
    tasks (snd (create_task sample_library
                  (task_request 1 "0" (JObj [("title", JStr "water plants")]))
                  sample_store))
    = [task_1; task_2; task_3; row] /\
    t_id row = 4 /\
    t_user_id row = 1 /\
    t_title row = "water plants" /\
    t_description row = None /\
    t_category row = None /\
    t_priority row = Some "MEDIUM" /\
    t_status row = Some "TODO" /\
    t_suggested_deadline row = None /\
    t_actual_deadline row = None /\
    t_ai_analyzed row = false /\
    t_created_at row = 1000 /\
    t_updated_at row = 1000.
Proof.
  apply (create_task_inserts_defaults sample_library
           (task_request 1 "0" (JObj [("title", JStr "water plants")]))
           sample_store 1 "water plants"); try reflexivity.
  intros t [<- | [<- | [<- | []]]]; discriminate.
Defined.

(** X4.  [create] without a title (absent, null or empty) is answered 400
    [Title required], and the store is not consulted. *)
Theorem create_task_requires_title :
  forall (lib : library) (req : request) (db : pool),
    truthy (get_prop (req_body req) "title") = false ->
    create_task lib req db = (json_error 400 "Title required", db).
Proof.
  intros lib req db H. unfold create_task. rewrite H. reflexivity.
Qed.

Lemma create_task_requires_title_witness :
  create_task sample_library
    (task_request 1 "0" (JObj [("description", JStr "soon")])) sample_store
  = (json_error 400 "Title required", sample_store).
Proof.
  apply (create_task_requires_title sample_library
           (task_request 1 "0" (JObj [("description", JStr "soon")])) sample_store).
  reflexivity.
Defined.





(** X8.  A task just created is what [get] by its id returns to its owner:
    the two responses are equal.  The store runs the statements, no task
    has the next id of the sequence, which has an id left, and the columns
    take the title and the description. *)
Theorem create_then_get :
  forall (lib : library) (req get_req : request) (db : pool) (u : Z),
    fault db = None ->
    as_integer lib (user_id req) = inr (Some u) ->
    existsb (fun r => u_id r =? u) (users db) = true ->
    truthy (get_prop (req_body req) "title") = true ->
    storable (Some 255%nat) (prepareValue lib (get_prop (req_body req) "title")) = true ->
    storable None (prepareValue lib (get_prop (req_body req) "description")) = true ->
    (forall t, In t (tasks db) -> t_id t <> tasks_id_seq db + 1) ->
    has_next (tasks_id_seq db) = true ->
    as_integer lib (params_id get_req) = inr (Some (tasks_id_seq db + 1)) ->
    as_integer lib (user_id get_req) = inr (Some u) ->
    status (fst (create_task lib req db)) = 200 /\
    fst (get_task lib get_req (snd (create_task lib req db)))
    = fst (create_task lib req db).
Proof.
  intros lib req get_req db u Hf Hu Huser Htruthy _ _ Hfresh _ Hgi Hgu.
  destruct (truthy_prepareValue lib _ Htruthy) as [title Htitle].
  assert (Hid : existsb (fun r => t_id r =? tasks_id_seq db + 1) (tasks db) = false).
  { destruct (existsb _ (tasks db)) eqn:E; [ | reflexivity].
    apply existsb_exists in E. destruct E as [x [Hx Hxi]].
    apply Z.eqb_eq in Hxi. destruct (Hfresh x Hx Hxi). }
  rewrite (create_task_eq lib req db u title Hf Hu Huser Htruthy Htitle Hid).
  split; [reflexivity | ].
  cbn [fst snd].
  rewrite (get_task_eq lib get_req _ (tasks_id_seq db + 1) u) by assumption.
  cbn [tasks with_new_task]. rewrite filter_app.
  rewrite filter_none.
  - simpl. unfold owned_task, eq_integer. cbn [t_id t_user_id].
    rewrite !Z.eqb_refl. reflexivity.
  - intros x Hx. apply owned_task_false_iff. intros [Hxi _].
    apply (Hfresh x Hx Hxi).
Qed.

Lemma create_then_get_witness :
  fst (get_task sample_library (task_request 1 "4" (JObj []))
         (snd (create_task sample_library
                 (task_request 1 "0" (JObj [("title", JStr "water plants")]))
                 sample_store)))
  = json_ok (JArr [task_json task_4]).
Proof.
  assert (Hfresh : forall t, In t (tasks sample_store) ->
                             t_id t <> tasks_id_seq sample_store + 1).
  { intros t [<- | [<- | [<- | []]]]; discriminate. }
  exact (proj2 (create_then_get sample_library
                  (task_request 1 "0" (JObj [("title", JStr "water plants")]))
                  (task_request 1 "4" (JObj [])) sample_store 1
                  eq_refl eq_refl eq_refl eq_refl eq_refl eq_refl Hfresh eq_refl
                  eq_refl eq_refl)).
Defined.

(** * The store under the handlers *)

(** ** What each handler does to the store, on every input *)

Lemma filter_true {A : Type} (l : list A) : filter (fun _ => true) l = l.
Proof.
  induction l as [ | a l IH]; simpl; [ | rewrite IH]; reflexivity.
Qed.

Lemma filter_idempotent {A : Type} (f : A -> bool) (l : list A) :
  filter f (filter f l) = filter f l.
Proof.
  induction l as [ | a l IH]; simpl.
  - reflexivity.
  - destruct (f a) eqn:E; simpl; [rewrite E, IH | rewrite IH]; reflexivity.
Qed.

Lemma keeps_identity_refl (t : task_row) : keeps_identity t t.
Proof. repeat split. Qed.

Lemma keeps_identity_trans (a b c : task_row) :
  keeps_identity a b -> keeps_identity b c -> keeps_identity a c.
Proof.
  unfold keeps_identity.
  intros (H1 & H2 & H3 & H4 & H5 & H6) (K1 & K2 & K3 & K4 & K5 & K6).
  repeat split; congruence.
Qed.

Lemma set_column_keeps (c : column) (v : option string) (t t' : task_row) :
  set_column c v t = inr t' -> keeps_identity t t'.
Proof.
  destruct c; simpl; try (destruct v; [ | discriminate]);
    intros H; injection H as <-; repeat split.
Qed.

(** Whatever the SET list, a row keeps what [keeps_identity] names. *)
Lemma assign_all_keeps (sets : list assignment) (now : Z) :
  forall t t', assign_all sets now t = inr t' -> keeps_identity t t'.
Proof.
  induction sets as [ | [c v | ] sets IH]; intros t t' H; simpl in H.
  - injection H as <-. apply keeps_identity_refl.
  - destruct (set_column c v t) as [e | t1] eqn:E; simpl in H; [discriminate | ].
    apply keeps_identity_trans with t1.
    + apply (set_column_keeps c v). exact E.
    + apply IH. exact H.
  - apply keeps_identity_trans with (set_updated_at now t).
    + repeat split.
    + apply IH. exact H.
Qed.

Lemma update_rows_keeps (matches : task_row -> bool)
    (change : task_row -> result task_row) :
  (forall t t', change t = inr t' -> keeps_identity t t') ->
  forall ts table returned,
    update_rows matches change ts = inr (table, returned) ->
    Forall2 (fun t t' => keeps_identity t t' /\ (matches t = false -> t' = t))
      ts table.
Proof.
  intros Hkeep. induction ts as [ | t ts IH]; intros table returned H; simpl in H.
  - injection H as <- <-. constructor.
  - destruct (matches t) eqn:Hm.
    + destruct (change t) as [e | t'] eqn:Hc; simpl in H; [discriminate | ].
      destruct (update_rows matches change ts) as [e | [tb rt]]; simpl in H;
        [discriminate | ].
      injection H as <- <-. constructor.
      * split; [apply Hkeep; exact Hc | intros K; congruence].
      * apply (IH tb rt). reflexivity.
    + destruct (update_rows matches change ts) as [e | [tb rt]]; simpl in H;
        [discriminate | ].
      injection H as <- <-. constructor.
      * split; [apply keeps_identity_refl | intros _; reflexivity].
      * apply (IH tb rt). reflexivity.
Qed.

Lemma Forall2_same {A : Type} (R : A -> A -> Prop) (l : list A) :
  (forall x, R x x) -> Forall2 R l l.
Proof. intros H. induction l; constructor; auto. Qed.

Section Effects.

Variable lib : library.
Variable env_JWT_SECRET : option string.

(** A SELECT returns the store it was given. *)
Lemma select_store (st : statement) (params : list jsval) (db : pool) :
  st = SelectUserByEmail \/ st = SelectTasks \/ st = SelectTasksByStatus \/
  st = SelectTask ->
  snd (pool_query lib st params db) = db.
Proof.
  intros H. unfold pool_query. destruct (fault db); [reflexivity | ].
  destruct H as [-> | [-> | [-> | ->]]]; reflexivity.
Qed.

Lemma list_tasks_store (req : request) (db : pool) :
  snd (list_tasks lib req db) = db.
Proof.
  unfold list_tasks. destruct (truthy (query_status req)); cbv zeta iota beta.
  - pose proof (select_store SelectTasksByStatus
                  ([user_id req] ++ [query_status req])%list db) as H.
    destruct (pool_query lib SelectTasksByStatus _ db) as [[e | rows] db'];
      simpl in *; apply H; auto.
  - pose proof (select_store SelectTasks [user_id req] db) as H.
    destruct (pool_query lib SelectTasks _ db) as [[e | rows] db'];
      simpl in *; apply H; auto.
Qed.

Lemma get_task_store (req : request) (db : pool) :
  snd (get_task lib req db) = db.
Proof.
  unfold get_task.
  pose proof (select_store SelectTask [params_id req; user_id req] db) as H.
  destruct (pool_query lib SelectTask _ db) as [[e | rows] db']; simpl in *.
  - apply H; auto.
  - destruct (Z.of_nat (length rows) =? 0); simpl; apply H; auto.
Qed.

Lemma login_store (req : request) (now : Z) (db : pool) :
  snd (login lib env_JWT_SECRET req now db) = db.
Proof.
  unfold login.
  destruct (negb (truthy (get_prop (req_body req) "email"))
            || negb (truthy (get_prop (req_body req) "password")));
    [reflexivity | ].
  pose proof (select_store SelectUserByEmail [get_prop (req_body req) "email"] db)
    as H.
  destruct (pool_query lib SelectUserByEmail _ db) as [[e | rows] db']; simpl in *.
  - apply H; auto.
  - destruct (Z.of_nat (length rows) =? 0); simpl; [apply H; auto | ].
    destruct (compareSync lib _ _) as [e | m]; simpl; [apply H; auto | ].
    destruct (negb m); simpl; apply H; auto.
Qed.

Lemma delete_task_store (req : request) (db : pool) :
  snd (delete_task lib req db) =
  match fault db with
  | Some _ => db
  | None => with_tasks db (filter (fun t => negb (addressed lib req t)) (tasks db))
  end.
Proof.
  unfold delete_task, pool_query. destruct (fault db); [reflexivity | ].
  unfold execute, integer_param, addressed. simpl.
  destruct (as_integer lib (params_id req)) as [e | i]; simpl.
  - rewrite filter_true, with_tasks_same. reflexivity.
  - destruct (as_integer lib (user_id req)) as [e | u]; simpl.
    + rewrite filter_true, with_tasks_same. reflexivity.
    + reflexivity.
Qed.

Lemma update_task_store (req : request) (db : pool) :
  exists table,
    snd (update_task lib req db) = with_tasks db table /\
    Forall2 (fun t t' => keeps_identity t t' /\
                         (addressed lib req t = false -> t' = t))
      (tasks db) table.
Proof.
  assert (Hsame : exists table,
             db = with_tasks db table /\
             Forall2 (fun t t' => keeps_identity t t' /\
                                  (addressed lib req t = false -> t' = t))
               (tasks db) table).
  { exists (tasks db). split; [symmetry; apply with_tasks_same | ].
    apply Forall2_same. intros x.
    split; [apply keeps_identity_refl | intros _; reflexivity]. }
  rewrite update_task_eq.
  destruct (patch_fields (req_body req)) as [ | f fields]; [exact Hsame | ].
  destruct (fault db); [exact Hsame | ].
  destruct (as_integer lib (params_id req)) as [e | i] eqn:Ei; [exact Hsame | ].
  destruct (as_integer lib (user_id req)) as [e | u] eqn:Eu; [exact Hsame | ].
  cbn [bind].
  destruct (update_rows _ _ (tasks db)) as [e | [table returned]] eqn:E;
    [exact Hsame | ].
  exists table. split.
  - destruct returned; reflexivity.
  - eapply Forall2_impl;
      [ | exact (update_rows_keeps _ _ (assign_all_keeps _ _) _ _ _ E)].
    intros t t' [Hk Hm]. split; [exact Hk | ].
    unfold addressed. rewrite Ei, Eu. exact Hm.
Qed.

Lemma create_task_store (req : request) (db : pool) :
  snd (create_task lib req db) = db \/
  snd (create_task lib req db) = with_new_task db (tasks db) (tasks_id_seq db + 1) \/
  exists row,
    snd (create_task lib req db)
    = with_new_task db (tasks db ++ [row])%list (tasks_id_seq db + 1) /\
    t_id row = tasks_id_seq db + 1 /\
    as_integer lib (user_id req) = inr (Some (t_user_id row)) /\
    existsb (fun r => u_id r =? t_user_id row) (users db) = true.
Proof.
  unfold create_task.
  destruct (negb (truthy (get_prop (req_body req) "title"))); [left; reflexivity | ].
  unfold pool_query. destruct (fault db); [left; reflexivity | ].
  unfold execute, integer_param, text_param. simpl.
  destruct (as_integer lib (user_id req)) as [e | [u | ]]; simpl.
  - left. reflexivity.
  - destruct (prepareValue lib (get_prop (req_body req) "title")) as [t | ].
    + destruct (existsb (fun r => t_id r =? tasks_id_seq db + 1) (tasks db));
        [right; left; reflexivity | ].
      destruct (existsb (fun r => u_id r =? u) (users db)) eqn:E.
      * right. right. eexists. simpl. repeat split. exact E.
      * right. left. reflexivity.
    + right. left. reflexivity.
  - right. left. reflexivity.
Qed.

Lemma register_store (req : request) (now : Z) (db : pool) :
  snd (register lib env_JWT_SECRET req now db) = db \/
  snd (register lib env_JWT_SECRET req now db)
  = with_users db (users db) (users_id_seq db + 1) \/
  exists row,
    snd (register lib env_JWT_SECRET req now db)
    = with_users db (users db ++ [row])%list (users_id_seq db + 1) /\
    u_id row = users_id_seq db + 1 /\
    existsb (fun u => (u_email u =? u_email row)%string) (users db) = false.
Proof.
  unfold register.
  destruct (negb (truthy (get_prop (req_body req) "email"))
            || negb (truthy (get_prop (req_body req) "password")));
    [left; reflexivity | ].
  destruct (hashSync lib (get_prop (req_body req) "password")) as [e | h];
    [left; reflexivity | ].
  unfold pool_query. destruct (fault db); [left; reflexivity | ].
  unfold execute, text_param. simpl.
  destruct (prepareValue lib (get_prop (req_body req) "email")) as [e | ]; simpl.
  - destruct (existsb (fun u => u_id u =? users_id_seq db + 1) (users db));
      [right; left; reflexivity | ].
    destruct (existsb (fun u => (u_email u =? e)%string) (users db)) eqn:E.
    + right. left. reflexivity.
    + right. right. eexists. simpl. repeat split. exact E.
  - right. left. reflexivity.
Qed.

End Effects.

(** ** A request that fails *)

(** X7.  A request that is not answered 200 changes no row.  After a
    registration or a [create] that fails, the users and the tasks are
    what they were (a value of the sequence may be used up); after an
    [update] or a [delete] that fails, whether with 400, 404 or 500, the
    store is as it was. *)
Theorem failed_request_changes_no_row :
  forall (lib : library) (env_JWT_SECRET : option string)
         (req : request) (now : Z) (db : pool),
    (status (fst (register lib env_JWT_SECRET req now db)) <> 200 ->
     users (snd (register lib env_JWT_SECRET req now db)) = users db /\
     tasks (snd (register lib env_JWT_SECRET req now db)) = tasks db) /\
    (status (fst (create_task lib req db)) <> 200 ->
     users (snd (create_task lib req db)) = users db /\
     tasks (snd (create_task lib req db)) = tasks db) /\
    (status (fst (update_task lib req db)) <> 200 ->
     snd (update_task lib req db) = db) /\
    (status (fst (delete_task lib req db)) <> 200 ->
     snd (delete_task lib req db) = db).
Proof.
  intros lib env req now db. split; [ | split; [ | split]].
  - unfold register.
    destruct (negb (truthy (get_prop (req_body req) "email"))
              || negb (truthy (get_prop (req_body req) "password")));
      [split; reflexivity | ].
    destruct (hashSync lib (get_prop (req_body req) "password")) as [e | h];
      [split; reflexivity | ].
    unfold pool_query. destruct (fault db); [split; reflexivity | ].
    unfold execute, text_param. simpl.
    destruct (prepareValue lib (get_prop (req_body req) "email")) as [e | ]; simpl;
      [ | split; reflexivity].
    destruct (existsb (fun u => u_id u =? users_id_seq db + 1) (users db));
      [split; reflexivity | ].
    destruct (existsb (fun u => (u_email u =? e)%string) (users db));
      [split; reflexivity | ].
    intros H. exfalso. apply H. reflexivity.
  - unfold create_task.
    destruct (negb (truthy (get_prop (req_body req) "title")));
      [split; reflexivity | ].
    unfold pool_query. destruct (fault db); [split; reflexivity | ].
    unfold execute, integer_param, text_param. simpl.
    destruct (as_integer lib (user_id req)) as [e | [u | ]]; simpl;
      try (split; reflexivity).
    destruct (prepareValue lib (get_prop (req_body req) "title")) as [t | ];
      [ | split; reflexivity].
    destruct (existsb (fun r => t_id r =? tasks_id_seq db + 1) (tasks db));
      [split; reflexivity | ].
    destruct (existsb (fun r => u_id r =? u) (users db));
      [ | split; reflexivity].
    intros H. exfalso. apply H. reflexivity.
  - rewrite update_task_eq.
    destruct (patch_fields (req_body req)) as [ | f fields]; [reflexivity | ].
    destruct (fault db); [reflexivity | ].
    destruct (_ <- as_integer lib (params_id req) ;; _)
      as [e | [table [ | r rs]]] eqn:E; [reflexivity | | ].
    + intros _. cbn [snd].
      destruct (as_integer lib (params_id req)) as [e | i]; [discriminate | ].
      destruct (as_integer lib (user_id req)) as [e | u]; [discriminate | ].
      cbn [bind] in E. apply update_rows_none_returned in E. subst table.
      apply with_tasks_same.
    + intros H. exfalso. apply H. reflexivity.
  - unfold delete_task, pool_query. destruct (fault db); [reflexivity | ].
    unfold execute, integer_param. simpl.
    destruct (as_integer lib (params_id req)) as [e | i]; simpl; [reflexivity | ].
    destruct (as_integer lib (user_id req)) as [e | u]; simpl; [reflexivity | ].
    intros H. exfalso. apply H. reflexivity.
Qed.

(** A second registration of an email, a patch with a title the store
    refuses, and a delete on a store whose connection is gone. *)
Lemma failed_request_changes_no_row_witness :
  users (snd (register sample_library None (register_request "a@x.com" "pw1") 0
                one_user_store))
  = users one_user_store /\
  snd (update_task sample_library
         (task_request 1 "1" (JObj [("status", JStr "DONE"); ("title", JNull)]))
         sample_store)
  = sample_store /\
  snd (delete_task sample_library (task_request 1 "1" (JObj [])) unreachable_store)
  = unreachable_store.
Proof.
  split; [ | split].
  - apply (proj1 (failed_request_changes_no_row sample_library None
                    (register_request "a@x.com" "pw1") 0 one_user_store)).
    simpl. discriminate.
  - apply (proj1 (proj2 (proj2 (failed_request_changes_no_row sample_library None
                    (task_request 1 "1"
                       (JObj [("status", JStr "DONE"); ("title", JNull)]))
                    0 sample_store)))).
    simpl. discriminate.
  - apply (proj2 (proj2 (proj2 (failed_request_changes_no_row sample_library None
                    (task_request 1 "1" (JObj [])) 0 unreachable_store)))).
    simpl. discriminate.
Defined.

(** ** The routes behind the guard *)

(** X9.  Each of the five task routes, on every request and store,
    answers 401 ([No token] without an Authorization header,
    [Invalid token] with one) and leaves the store as it was: its handler
    is never run. *)
Theorem task_routes_unauthenticated :
  forall (lib : library) (env_JWT_SECRET : option string)
         (req : request) (now : Z) (db : pool)
         (route : request -> Z -> pool -> response * pool),
    In route [app_post_tasks lib env_JWT_SECRET;
              app_get_tasks lib env_JWT_SECRET;
              app_get_task lib env_JWT_SECRET;
              app_patch_task lib env_JWT_SECRET;
              app_delete_task lib env_JWT_SECRET] ->
    route req now db =
    (json_error 401 match authorization req with
                    | Some _ => "Invalid token"
                    | None => "No token"
                    end, db).
Proof.
  intros lib env req now db route Hin.
  assert (H : forall handler,
             guarded lib env handler req now db =
             (json_error 401 match authorization req with
                             | Some _ => "Invalid token"
                             | None => "No token"
                             end, db)).
  { intros handler. unfold guarded, verifyToken.
    destruct (authorization req); reflexivity. }
  simpl in Hin.
  destruct Hin as [<- | [<- | [<- | [<- | [<- | []]]]]]; apply H.
Qed.

Lemma task_routes_unauthenticated_witness :
  app_get_task sample_library None
    (mk_request (Some "Bearer token-for-1") (JObj []) (JStr "1") JUndefined JUndefined)
    0 sample_store
  = (json_error 401 "Invalid token", sample_store).
Proof.
  apply (task_routes_unauthenticated sample_library None
           (mk_request (Some "Bearer token-for-1") (JObj []) (JStr "1")
              JUndefined JUndefined)
           0 sample_store (app_get_task sample_library None)).
  right. right. left. reflexivity.
Defined.

(** ** Handlers that only read *)

(** X10.  [list], [get] and [login] return the store they were given, on
    every request and every store. *)
Theorem reads_leave_store :
  forall (lib : library) (env_JWT_SECRET : option string)
         (req : request) (now : Z) (db : pool),
    snd (list_tasks lib req db) = db /\
    snd (get_task lib req db) = db /\
    snd (login lib env_JWT_SECRET req now db) = db.
Proof.
  intros lib env req now db.
  split; [apply list_tasks_store | split; [apply get_task_store | apply login_store]].
Qed.

(** ** What an update keeps *)

Lemma Forall2_map_eq {A B : Type} (R : A -> A -> Prop) (f : A -> B)
    (l l' : list A) :
  (forall x y, R x y -> f y = f x) -> Forall2 R l l' -> map f l' = map f l.
Proof.
  intros H. induction 1 as [ | a b l l' Hab HF IH]; simpl.
  - reflexivity.
  - rewrite (H a b Hab), IH. reflexivity.
Qed.

(** X11.  [update], on every request and store, adds no row and removes
    none, and leaves the id, the owner and the creation time of every row,
    and all the users, as they were. *)
Theorem update_task_keeps_rows :
  forall (lib : library) (req : request) (db : pool),
    map t_id (tasks (snd (update_task lib req db))) = map t_id (tasks db) /\
    map t_user_id (tasks (snd (update_task lib req db))) = map t_user_id (tasks db) /\
    map t_created_at (tasks (snd (update_task lib req db)))
    = map t_created_at (tasks db) /\
    users (snd (update_task lib req db)) = users db.
Proof.
  intros lib req db.
  destruct (update_task_store lib req db) as (table & -> & HF).
  cbn [tasks users with_tasks].
  repeat split.
  - apply (Forall2_map_eq _ t_id _ _ (fun x y H => proj1 (proj1 H)) HF).
  - apply (Forall2_map_eq _ t_user_id _ _
             (fun x y H => proj1 (proj2 (proj1 H))) HF).
  - apply (Forall2_map_eq _ t_created_at _ _
             (fun x y H => proj1 (proj2 (proj2 (proj1 H)))) HF).
Qed.

(** ** How the task handlers compose *)

(** X12.  Deleting twice is deleting once: the second [delete] of the same
    request gives the response and the store the first one gave. *)
Theorem delete_task_twice :
  forall (lib : library) (req : request) (db : pool),
    delete_task lib req (snd (delete_task lib req db)) = delete_task lib req db.
Proof.
  intros lib req db.
  assert (Hfst : forall d, fault d = fault db ->
                           fst (delete_task lib req d) = fst (delete_task lib req db)).
  { intros d Hd. unfold delete_task, pool_query. rewrite Hd.
    destruct (fault db); [reflexivity | ].
    unfold execute, integer_param. simpl.
    destruct (as_integer lib (params_id req)); simpl; [reflexivity | ].
    destruct (as_integer lib (user_id req)); reflexivity. }
  assert (Hfault : fault (snd (delete_task lib req db)) = fault db).
  { rewrite delete_task_store. destruct (fault db) eqn:E; [exact E | exact E]. }
  apply injective_projections.
  - apply Hfst. exact Hfault.
  - rewrite (delete_task_store lib req (snd (delete_task lib req db))).
    rewrite Hfault. rewrite (delete_task_store lib req db).
    destruct (fault db); [reflexivity | ].
    unfold with_tasks. cbn [users tasks users_id_seq tasks_id_seq clock fault].
    rewrite filter_idempotent. reflexivity.
Qed.



(** X14.  After an [update] answered 200, [get] by the same id and the
    same user answers with the body the update answered with: the rows as
    updated. *)
Theorem update_then_get :
  forall (lib : library) (req get_req : request) (db : pool) (i u : Z),
    as_integer lib (params_id req) = inr (Some i) ->
    as_integer lib (user_id req) = inr (Some u) ->
    as_integer lib (params_id get_req) = inr (Some i) ->
    as_integer lib (user_id get_req) = inr (Some u) ->
    status (fst (update_task lib req db)) = 200 ->
    fst (get_task lib get_req (snd (update_task lib req db)))
    = fst (update_task lib req db).
Proof.
  intros lib req get_req db i u Hi Hu Hgi Hgu Hok.
  assert (Hf : fault db = None).
  { rewrite update_task_eq in Hok.
    destruct (patch_fields (req_body req)); [discriminate | ].
    destruct (fault db); [discriminate | reflexivity]. }
  destruct (update_task_ok_inv lib req db i u Hi Hu Hok)
    as (table & returned & Hrows & Hne & Heq).
  rewrite Heq. cbn [fst snd].
  destruct (update_rows_patched lib _ _ _ _ _ _ _ Hrows) as [_ Hr].
  rewrite (get_task_eq lib get_req _ i u) by assumption.
  cbn [tasks with_tasks]. rewrite <- Hr.
  destruct returned; [contradiction | reflexivity].
Qed.

Lemma update_then_get_witness :
  fst (get_task sample_library (task_request 1 "1" (JObj []))
         (snd (update_task sample_library
                 (task_request 1 "1" (JObj [("status", JStr "DONE")])) sample_store)))
  = json_ok (JArr [task_json task_1_done]).
Proof.
  exact (update_then_get sample_library
           (task_request 1 "1" (JObj [("status", JStr "DONE")]))
           (task_request 1 "1" (JObj [])) sample_store 1 1
           eq_refl eq_refl eq_refl eq_refl eq_refl).
Defined.

(** ** An id beyond the range of the column *)

(** X15.  When the id of the path is a decimal integer beyond the range of
    [integer] (99999999999, say), [get], [delete] and [update] with a
    recognized field answer 500, not 404, and leave the store as it
    was. *)
Theorem out_of_range_id_is_internal_error :
  forall (lib : library) (req : request) (db : pool) (z : Z),
    params_id req = JStr (toString z) ->
    z < -2147483648 \/ 2147483647 < z ->
    get_task lib req db = (json_error 500 "Failed to fetch task", db) /\
    delete_task lib req db = (json_error 500 "Delete failed", db) /\
    (patch_fields (req_body req) <> [] ->
     update_task lib req db = (json_error 500 "Update failed", db)).
Proof.
  intros lib req db z Hz Hout.
  assert (Hid : as_integer lib (params_id req)
                = inl (integer_out_of_range (toString z))).
  { rewrite Hz. unfold as_integer. cbn [prepareValue].
    rewrite int4in_toString.
    replace ((-2147483648 <=? z) && (z <=? 2147483647)) with false;
      [reflexivity | ].
    symmetry. apply andb_false_iff.
    destruct Hout as [H | H]; [left | right]; apply Z.leb_gt; exact H. }
  split; [ | split].
  - unfold get_task, pool_query. destruct (fault db); [reflexivity | ].
    unfold execute, integer_param. simpl. rewrite Hid. reflexivity.
  - unfold delete_task, pool_query. destruct (fault db); [reflexivity | ].
    unfold execute, integer_param. simpl. rewrite Hid. reflexivity.
  - intros Hfields. rewrite update_task_eq, Hid.
    destruct (patch_fields (req_body req)); [contradiction | ].
    destruct (fault db); reflexivity.
Qed.

Lemma out_of_range_id_is_internal_error_witness :
  get_task sample_library (task_request 1 "99999999999" (JObj [])) sample_store
  = (json_error 500 "Failed to fetch task", sample_store) /\
  delete_task sample_library (task_request 1 "99999999999" (JObj [])) sample_store
  = (json_error 500 "Delete failed", sample_store).
Proof.
  destruct (out_of_range_id_is_internal_error sample_library
              (task_request 1 "99999999999" (JObj [])) sample_store
              99999999999 eq_refl (or_intror eq_refl)) as (Hget & Hdel & _).
  split; assumption.
Defined.

(** ** Rows of other users *)

Lemma addressed_owner (lib : library) (req : request) (t : task_row) :
  addressed lib req t = true ->
  as_integer lib (user_id req) = inr (Some (t_user_id t)).
Proof.
  unfold addressed, owned_task, eq_integer.
  destruct (as_integer lib (params_id req)) as [e | i]; [discriminate | ].
  destruct (as_integer lib (user_id req)) as [e | [u | ]]; try discriminate.
  - intros H. apply andb_true_iff in H. destruct H as [_ H].
    apply Z.eqb_eq in H. rewrite H. reflexivity.
  - rewrite andb_false_r. discriminate.
Qed.

Lemma filter_filter_kept {A : Type} (q p : A -> bool) (l : list A) :
  (forall x, q x = true -> p x = true) ->
  filter q (filter p l) = filter q l.
Proof.
  intros H. induction l as [ | a l IH]; simpl.
  - reflexivity.
  - destruct (p a) eqn:Ep; simpl.
    + rewrite IH. reflexivity.
    + destruct (q a) eqn:Eq; [ | exact IH].
      rewrite (H a Eq) in Ep. discriminate.
Qed.

Lemma Forall2_filter_kept {A : Type} (R : A -> A -> Prop) (q : A -> bool)
    (l l' : list A) :
  (forall x y, R x y -> q y = q x /\ (q x = true -> y = x)) ->
  Forall2 R l l' -> filter q l' = filter q l.
Proof.
  intros H. induction 1 as [ | a b l l' Hab HF IH]; simpl.
  - reflexivity.
  - destruct (H a b Hab) as [Hq Hsame]. rewrite Hq.
    destruct (q a) eqn:E; [ | exact IH].
    rewrite (Hsame eq_refl), IH. reflexivity.
Qed.

(** X16.  No task handler touches the tasks of a user other than the one
    the request carries: whatever the request and the store, the rows
    owned by any other user are the same rows, in the same order, after
    [create], [update] and [delete] (and after [list] and [get], which
    change nothing). *)
Theorem other_owners_rows_kept :
  forall (lib : library) (req : request) (db : pool) (other : Z),
    as_integer lib (user_id req) <> inr (Some other) ->
    filter (owned_by other) (tasks (snd (create_task lib req db)))
    = filter (owned_by other) (tasks db) /\
    filter (owned_by other) (tasks (snd (update_task lib req db)))
    = filter (owned_by other) (tasks db) /\
    filter (owned_by other) (tasks (snd (delete_task lib req db)))
    = filter (owned_by other) (tasks db) /\
    filter (owned_by other) (tasks (snd (list_tasks lib req db)))
    = filter (owned_by other) (tasks db) /\
    filter (owned_by other) (tasks (snd (get_task lib req db)))
    = filter (owned_by other) (tasks db).
Proof.
  intros lib req db other Hother.
  assert (Hnot : forall t, owned_by other t = true -> addressed lib req t = false).
  { intros t Ht. destruct (addressed lib req t) eqn:E; [ | reflexivity].
    exfalso. apply Hother. rewrite (addressed_owner lib req t E).
    apply Z.eqb_eq in Ht. rewrite Ht. reflexivity. }
  split; [ | split; [ | split; [ | split]]].
  - destruct (create_task_store lib req db) as [-> | [-> | (row & -> & _ & Hu & _)]];
      try reflexivity.
    cbn [tasks with_new_task]. rewrite filter_app. simpl.
    destruct (owned_by other row) eqn:E; [ | apply app_nil_r].
    exfalso. apply Hother. rewrite Hu. apply Z.eqb_eq in E. rewrite E. reflexivity.
  - destruct (update_task_store lib req db) as (table & -> & HF).
    cbn [tasks with_tasks].
    refine (Forall2_filter_kept _ _ _ _ _ HF).
    intros x y [Hk Hsame]. split.
    + unfold owned_by. destruct Hk as (_ & -> & _). reflexivity.
    + intros Hq. apply Hsame, Hnot, Hq.
  - rewrite delete_task_store. destruct (fault db); [reflexivity | ].
    cbn [tasks with_tasks]. apply filter_filter_kept.
    intros t Ht. rewrite (Hnot t Ht). reflexivity.
  - rewrite list_tasks_store. reflexivity.
  - rewrite get_task_store. reflexivity.
Qed.

(** User 1 patches and deletes by the id of task 2: the tasks of user 2
    are what they were. *)
Lemma other_owners_rows_kept_witness :
  filter (owned_by 2)
    (tasks (snd (update_task sample_library
                   (task_request 1 "2" (JObj [("title", JStr "mine")])) sample_store)))
  = [task_2] /\
  filter (owned_by 2)
    (tasks (snd (delete_task sample_library
                   (task_request 1 "2" (JObj [("title", JStr "mine")])) sample_store)))
  = [task_2].
Proof.
  assert (H : as_integer sample_library
                (user_id (task_request 1 "2" (JObj [("title", JStr "mine")])))
              <> inr (Some 2)) by discriminate.
  destruct (other_owners_rows_kept sample_library
              (task_request 1 "2" (JObj [("title", JStr "mine")])) sample_store 2 H)
    as (_ & Hupd & Hdel & _).
  split; [exact Hupd | exact Hdel].
Defined.

(** ** The constraints of the tables *)

Lemma NoDup_snoc {A : Type} (l : list A) (x : A) :
  NoDup l -> ~ In x l -> NoDup (l ++ [x]).
Proof.
  induction l as [ | a l IH]; simpl; intros Hnd Hx.
  - constructor; [intros [] | constructor].
  - inversion Hnd as [ | ? ? Ha Hl]; subst. constructor.
    + rewrite in_app_iff. intros [H | [H | []]]; [contradiction | ].
      apply Hx. left. symmetry. exact H.
    + apply IH; [exact Hl | ]. intros H. apply Hx. right. exact H.
Qed.

Lemma filter_keeps_distinct_ids (keep : task_row -> bool) (ts : list task_row) :
  NoDup (map t_id ts) -> NoDup (map t_id (filter keep ts)).
Proof.
  induction ts as [ | t ts IH]; simpl; intros Hnd.
  - constructor.
  - inversion Hnd as [ | ? ? Hfresh Hrest]; subst.
    destruct (keep t); simpl; [ | apply IH; exact Hrest].
    constructor; [ | apply IH; exact Hrest].
    intros Hin. apply Hfresh. apply in_map_iff in Hin.
    destruct Hin as [x [Hx Hin]]. apply filter_In in Hin.
    rewrite <- Hx. apply in_map. apply Hin.
Qed.

Lemma store_ok_initial (now : Z) : store_ok (mk_pool [] [] 0 0 now None).
Proof.
  unfold store_ok. simpl.
  repeat split; try constructor; intros x [].
Qed.

Section Constraints.

Variable lib : library.
Variable env_JWT_SECRET : option string.

Lemma store_ok_register (req : request) (now : Z) (db : pool) :
  store_ok db -> store_ok (snd (register lib env_JWT_SECRET req now db)).
Proof.
  intros Hok.
  destruct (register_store lib env_JWT_SECRET req now db)
    as [-> | [-> | (row & -> & Hid & Hfresh)]]; [exact Hok | | ];
    destruct Hok as (Hu & He & Hseq & Ht & Htseq & Hfk);
    unfold store_ok;
    cbn [users tasks users_id_seq tasks_id_seq with_users].
  - repeat split; try assumption.
    intros u Hin. specialize (Hseq u Hin). lia.
  - repeat split; try assumption.
    + rewrite map_app. simpl. apply NoDup_snoc; [exact Hu | ].
      intros Hin. apply in_map_iff in Hin. destruct Hin as [u [Hu' Hin]].
      specialize (Hseq u Hin). lia.
    + rewrite map_app. simpl. apply NoDup_snoc; [exact He | ].
      intros Hin. apply in_map_iff in Hin. destruct Hin as [u [Hu' Hin]].
      assert (Hex : existsb (fun u0 => (u_email u0 =? u_email row)%string) (users db)
                    = true).
      { apply existsb_exists. exists u. split; [exact Hin | ].
        apply String.eqb_eq. exact Hu'. }
      rewrite Hex in Hfresh. discriminate.
    + intros u Hin. apply in_app_iff in Hin. destruct Hin as [Hin | [<- | []]].
      * specialize (Hseq u Hin). lia.
      * lia.
    + intros t Hin. destruct (Hfk t Hin) as [u [Hu' Hut]].
      exists u. split; [apply in_app_iff; left; exact Hu' | exact Hut].
Qed.

Lemma store_ok_create (req : request) (db : pool) :
  store_ok db -> store_ok (snd (create_task lib req db)).
Proof.
  intros Hok.
  destruct (create_task_store lib req db)
    as [-> | [-> | (row & -> & Hid & _ & Huser)]]; [exact Hok | | ];
    destruct Hok as (Hu & He & Hseq & Ht & Htseq & Hfk);
    unfold store_ok;
    cbn [users tasks users_id_seq tasks_id_seq with_new_task].
  - repeat split; try assumption.
    intros t Hin. specialize (Htseq t Hin). lia.
  - repeat split; try assumption.
    + rewrite map_app. simpl. apply NoDup_snoc; [exact Ht | ].
      intros Hin. apply in_map_iff in Hin. destruct Hin as [t [Ht' Hin]].
      specialize (Htseq t Hin). lia.
    + intros t Hin. apply in_app_iff in Hin. destruct Hin as [Hin | [<- | []]].
      * specialize (Htseq t Hin). lia.
      * lia.
    + intros t Hin. apply in_app_iff in Hin. destruct Hin as [Hin | [<- | []]].
      * apply Hfk. exact Hin.
      * apply existsb_exists in Huser. destruct Huser as [u [Hin Hu']].
        exists u. split; [exact Hin | apply Z.eqb_eq; exact Hu'].
Qed.

Lemma store_ok_update (req : request) (db : pool) :
  store_ok db -> store_ok (snd (update_task lib req db)).
Proof.
  intros (Hu & He & Hseq & Ht & Htseq & Hfk).
  destruct (update_task_store lib req db) as (table & -> & HF).
  assert (Hrow : forall t', In t' table ->
                            exists t, In t (tasks db) /\ keeps_identity t t').
  { intros t' Hin. destruct (Forall2_In_r _ _ _ HF t' Hin) as [t [Ht' [Hk _]]].
    exists t. split; assumption. }
  unfold store_ok. cbn [users tasks users_id_seq tasks_id_seq with_tasks].
  repeat split; try assumption.
  - rewrite (Forall2_map_eq _ t_id _ _ (fun x y H => proj1 (proj1 H)) HF).
    exact Ht.
  - intros t' Hin. destruct (Hrow t' Hin) as [t [Ht' (Hid & _)]].
    rewrite Hid. apply Htseq. exact Ht'.
  - intros t' Hin. destruct (Hrow t' Hin) as [t [Ht' (_ & Huid & _)]].
    rewrite Huid. apply Hfk. exact Ht'.
Qed.

Lemma store_ok_delete (req : request) (db : pool) :
  store_ok db -> store_ok (snd (delete_task lib req db)).
Proof.
  intros Hok. rewrite delete_task_store. destruct (fault db); [exact Hok | ].
  destruct Hok as (Hu & He & Hseq & Ht & Htseq & Hfk).
  unfold store_ok. cbn [users tasks users_id_seq tasks_id_seq with_tasks].
  repeat split; try assumption.
  - apply filter_keeps_distinct_ids. exact Ht.
  - intros t Hin. apply filter_In in Hin. apply Htseq, Hin.
  - intros t Hin. apply filter_In in Hin. apply Hfk, Hin.
Qed.

End Constraints.

(** X17.  Every handler keeps the constraints of the tables: from a store
    where ids are distinct and were handed out by the sequences, emails are
    distinct, and every task refers to a user, it leads to such a store,
    whatever the request.  (The store with no rows is one.) *)
Theorem handlers_keep_store_ok :
  forall (lib : library) (env_JWT_SECRET : option string)
         (req : request) (now : Z) (db : pool),
    store_ok db ->
    store_ok (snd (register lib env_JWT_SECRET req now db)) /\
    store_ok (snd (login lib env_JWT_SECRET req now db)) /\
    store_ok (snd (create_task lib req db)) /\
    store_ok (snd (list_tasks lib req db)) /\
    store_ok (snd (get_task lib req db)) /\
    store_ok (snd (update_task lib req db)) /\
    store_ok (snd (delete_task lib req db)).
Proof.
  intros lib env req now db Hok.
  split; [apply store_ok_register; exact Hok | ].
  split; [rewrite login_store; exact Hok | ].
  split; [apply store_ok_create; exact Hok | ].
  split; [rewrite list_tasks_store; exact Hok | ].
  split; [rewrite get_task_store; exact Hok | ].
  split; [apply store_ok_update; exact Hok | apply store_ok_delete; exact Hok].
Qed.

(** From the empty store: a registration, then the first task of the new
    user. *)
Lemma handlers_keep_store_ok_witness :
  store_ok empty_store /\
  store_ok (snd (register sample_library None
                   (register_request "a@x.com" "pw1") 0 empty_store)) /\
  store_ok (snd (create_task sample_library
                   (task_request 1 "0" (JObj [("title", JStr "buy milk")]))
                   (snd (register sample_library None
                           (register_request "a@x.com" "pw1") 0 empty_store)))).
Proof.
  pose proof (store_ok_initial 1000) as H0.
  pose proof (handlers_keep_store_ok sample_library None
                (register_request "a@x.com" "pw1") 0 empty_store H0) as (H1 & _).
  pose proof (handlers_keep_store_ok sample_library None
                (task_request 1 "0" (JObj [("title", JStr "buy milk")])) 0
                _ H1) as (_ & _ & H2 & _).
  split; [exact H0 | split; [exact H1 | exact H2]].
Defined.

(** ** The language and the driver *)

Lemma split_not_nil (sep : ascii) (s : string) : split sep s <> [].
Proof.
  destruct s as [ | c rest]; simpl; [discriminate | ].
  destruct (Ascii.eqb c sep); [discriminate | ].
  destruct (split sep rest); discriminate.
Qed.

Lemma split_without (sep : ascii) (w : string) :
  ~ In sep (list_ascii_of_string w) -> split sep w = [w].
Proof.
  induction w as [ | c w IH]; simpl; intros H.
  - reflexivity.
  - destruct (Ascii.eqb_spec c sep) as [E | _].
    + exfalso. apply H. left. exact E.
    + rewrite IH by (intros K; apply H; right; exact K). reflexivity.
Qed.

Lemma split_at_first (sep : ascii) (w rest : string) :
  ~ In sep (list_ascii_of_string w) ->
  split sep (w ++ String sep rest) = w :: split sep rest.
Proof.
  induction w as [ | c w IH]; simpl; intros H.
  - rewrite Ascii.eqb_refl. reflexivity.
  - destruct (Ascii.eqb_spec c sep) as [E | _].
    + exfalso. apply H. left. exact E.
    + rewrite IH by (intros K; apply H; right; exact K). reflexivity.
Qed.

(** X18.  [split]: the pieces hold no separator; joined by the separator
    they give the string back; and a header [Bearer <token>] whose token
    holds no blank splits, on the blank, into the two pieces [Bearer] and
    the token. *)
Theorem split_pieces :
  forall (sep : ascii) (s : string),
    Forall (fun w => ~ In sep (list_ascii_of_string w)) (split sep s) /\
    String.concat (String sep EmptyString) (split sep s) = s /\
    forall token : string,
      ~ In " "%char (list_ascii_of_string token) ->
      split " "%char ("Bearer " ++ token) = ["Bearer"; token].
Proof.
  intros sep s. split; [ | split].
  - induction s as [ | c rest IH]; simpl.
    + constructor; [intros [] | constructor].
    + destruct (Ascii.eqb_spec c sep) as [E | E].
      * constructor; [intros [] | exact IH].
      * destruct (split sep rest) as [ | w ws]; simpl.
        -- constructor; [ | constructor]. intros [K | []]. contradiction.
        -- inversion IH as [ | ? ? Hw Hws]; subst.
           constructor; [ | exact Hws].
           simpl. intros [K | K]; [contradiction | apply Hw; exact K].
  - induction s as [ | c rest IH]; simpl.
    + reflexivity.
    + destruct (Ascii.eqb_spec c sep) as [E | E].
      * pose proof (split_not_nil sep rest) as Hne.
        destruct (split sep rest) as [ | w ws]; [contradiction | ].
        simpl in *. rewrite IH, E. reflexivity.
      * destruct (split sep rest) as [ | w ws].
        -- simpl in IH. subst rest. reflexivity.
        -- destruct ws as [ | w' ws'].
           ++ simpl in *. rewrite IH. reflexivity.
           ++ simpl in *. rewrite IH. reflexivity.
  - intros token Htoken.
    change ("Bearer " ++ token) with ("Bearer" ++ String " "%char token).
    rewrite split_at_first.
    + rewrite (split_without _ _ Htoken). reflexivity.
    + simpl. intros [K | [K | [K | [K | [K | [K | []]]]]]]; discriminate.
Qed.

Lemma prefix_iff (a b : string) :
  prefix a b = true <-> exists post, b = a ++ post.
Proof.
  revert b. induction a as [ | c a IH]; intros b.
  - destruct b; simpl; split; eauto.
  - destruct b as [ | d b]; simpl.
    + split; [discriminate | intros [post H]; discriminate].
    + destruct (ascii_dec c d) as [-> | Hne].
      * rewrite IH. split; intros [post H]; exists post.
        -- rewrite H. reflexivity.
        -- injection H as H. exact H.
      * split; [discriminate | ].
        intros [post H]. injection H as H _. congruence.
Qed.

(** X19.  [includes] holds exactly of the strings that contain the needle:
    a registration failure is answered as a conflict exactly when its
    message reads [duplicate] somewhere, whatever surrounds it. *)
Theorem includes_iff :
  forall hay needle : string,
    includes hay needle = true <->
    exists pre post, hay = pre ++ needle ++ post.
Proof.
  intros hay needle. induction hay as [ | c hay IH]; cbn [includes].
  - rewrite orb_false_r, prefix_iff. split.
    + intros [post H]. exists EmptyString, post. exact H.
    + intros [pre [post H]]. destruct pre; simpl in H.
      * exists post. exact H.
      * discriminate.
  - rewrite orb_true_iff, prefix_iff, IH. split.
    + intros [[post H] | [pre [post H]]].
      * exists EmptyString, post. exact H.
      * exists (String c pre), post. simpl. rewrite H. reflexivity.
    + intros [pre [post H]]. destruct pre as [ | d pre]; simpl in H.
      * left. exists post. exact H.
      * right. injection H as _ H. exists pre, post. exact H.
Qed.


(** ** Registration, further *)

(** X21.  A registration of a new email, on a store that runs the
    statement, whose sequence is not behind its table and has an id left,
    with an email and a hash the columns take, answers 200 and stores one
    more user: the next id of the sequence, the email as given, the bcrypt
    hash of the password in place of the password, the time of the
    insert.  The users already there and all the tasks are as they
    were. *)
Theorem register_stores_hash :
  forall (lib : library) (env_JWT_SECRET : option string)
         (req : request) (now : Z) (db : pool) (e p : string),
    fault db = None ->
    get_prop (req_body req) "email" = JStr e -> e <> EmptyString ->
    get_prop (req_body req) "password" = JStr p -> p <> EmptyString ->
    storable (Some 255%nat) (Some e) = true ->
    storable (Some 255%nat) (Some (bcrypt_hash lib p)) = true ->
    (forall u, In u (users db) -> u_id u <= users_id_seq db) ->
    has_next (users_id_seq db) = true ->
    existsb (fun u => (u_email u =? e)%string) (users db) = false ->
    status (fst (register lib env_JWT_SECRET req now db)) = 200 /\
    users (snd (register lib env_JWT_SECRET req now db))
    = (users db ++
       [mk_user (users_id_seq db + 1) e (bcrypt_hash lib p) (clock db)])%list /\
    tasks (snd (register lib env_JWT_SECRET req now db)) = tasks db.
Proof.
  intros lib env req now db e p Hf He He' Hp Hp' _ _ Hseq _ Hfresh.
  rewrite (register_fresh_email lib env req now db e p Hf He He' Hp Hp'
             (next_id_is_free u_id _ _ Hseq) Hfresh).
  repeat split.
Qed.

Lemma register_stores_hash_witness :
  users (snd (register sample_library None (register_request "b@x.com" "pw2") 0
                one_user_store))
  = [mk_user 1 "a@x.com" "hash:pw1" 1000; mk_user 2 "b@x.com" "hash:pw2" 1000].
Proof.
  refine (proj1 (proj2 (register_stores_hash sample_library None
                          (register_request "b@x.com" "pw2") 0 one_user_store
                          "b@x.com" "pw2" eq_refl eq_refl _ eq_refl _
                          eq_refl eq_refl _ eq_refl eq_refl)));
    try discriminate.
  intros u [<- | []]. reflexivity.
Defined.

(** X22.  A registration whose password is present but is not a string (a
    number, [true], an array, an object) answers 500
    [Registration failed] and leaves the store as it was: [hashSync]
    throws before any statement is sent. *)
Theorem register_password_not_a_string :
  forall (lib : library) (env_JWT_SECRET : option string)
         (req : request) (now : Z) (db : pool),
    truthy (get_prop (req_body req) "email") = true ->
    truthy (get_prop (req_body req) "password") = true ->
    typeof (get_prop (req_body req) "password") <> "string" ->
    register lib env_JWT_SECRET req now db
    = (json_error 500 "Registration failed", db).
Proof.
  intros lib env req now db Hemail Hpassword Htype.
  unfold register. rewrite Hemail, Hpassword. simpl.
  destruct (get_prop (req_body req) "password");
    simpl in Hpassword, Htype; try discriminate; try reflexivity.
  exfalso. apply Htype. reflexivity.
Qed.

Lemma register_password_not_a_string_witness :
  register sample_library None
    (mk_request None (JObj [("email", JStr "a@x.com"); ("password", JNum 123456)])
       JUndefined JUndefined JUndefined) 0 empty_store
  = (json_error 500 "Registration failed", empty_store).
Proof.
  apply (register_password_not_a_string sample_library None
           (mk_request None
              (JObj [("email", JStr "a@x.com"); ("password", JNum 123456)])
              JUndefined JUndefined JUndefined) 0 empty_store).
  - reflexivity.
  - reflexivity.
  - discriminate.
Defined.

(** ** The responses of the handlers *)

Ltac answer_200 := left; reflexivity.

Ltac answer_error :=
  right; do 2 eexists; (split; [ | reflexivity]); simpl; auto 10.

(** X23.  Besides 200, each handler answers only with its own error
    objects, whatever the request and the store: [delete] never answers
    404, [list] never 404, and no error of the store or of a library
    reaches a response.  [login] never answers 200. *)
Theorem handler_responses :
  forall (lib : library) (env_JWT_SECRET : option string)
         (req : request) (now : Z) (db : pool),
    answers (fst (register lib env_JWT_SECRET req now db))
      [(400, "Email and password required"); (400, "Email already exists");
       (500, "Registration failed")] /\
    (exists s msg,
        In (s, msg) [(400, "Email and password required");
                     (401, "Invalid credentials"); (500, "Login failed")] /\
        fst (login lib env_JWT_SECRET req now db) = json_error s msg) /\
    answers (fst (create_task lib req db))
      [(400, "Title required"); (500, "Task creation failed")] /\
    answers (fst (list_tasks lib req db)) [(500, "Failed to fetch tasks")] /\
    answers (fst (get_task lib req db))
      [(404, "Task not found"); (500, "Failed to fetch task")] /\
    answers (fst (update_task lib req db))
      [(400, "No updates provided"); (404, "Task not found");
       (500, "Update failed")] /\
    answers (fst (delete_task lib req db)) [(500, "Delete failed")].
Proof.
  intros lib env req now db. unfold answers.
  split; [ | split; [ | split; [ | split; [ | split; [ | split]]]]].
  - unfold register.
    destruct (negb (truthy (get_prop (req_body req) "email"))
              || negb (truthy (get_prop (req_body req) "password")));
      [answer_error | ].
    destruct (hashSync lib (get_prop (req_body req) "password")) as [e | h].
    + unfold register_catch. destruct (includes (message e) "duplicate");
        answer_error.
    + destruct (pool_query lib InsertUser _ db) as [[e | rows] db'].
      * unfold register_catch. destruct (includes (message e) "duplicate");
          answer_error.
      * answer_200.
  - unfold login.
    destruct (negb (truthy (get_prop (req_body req) "email"))
              || negb (truthy (get_prop (req_body req) "password"))).
    { do 2 eexists; (split; [ | reflexivity]); simpl; auto 10. }
    destruct (pool_query lib SelectUserByEmail _ db) as [[e | rows] db'].
    { do 2 eexists; (split; [ | reflexivity]); simpl; auto 10. }
    destruct (Z.of_nat (length rows) =? 0).
    { do 2 eexists; (split; [ | reflexivity]); simpl; auto 10. }
    rewrite array_has_no_field by reflexivity.
    destruct (compareSync_undefined lib (get_prop (req_body req) "password"))
      as [err ->].
    do 2 eexists; (split; [ | reflexivity]); simpl; auto 10.
  - unfold create_task.
    destruct (negb (truthy (get_prop (req_body req) "title"))); [answer_error | ].
    destruct (pool_query lib InsertTask _ db) as [[e | rows] db'];
      [answer_error | answer_200].
  - unfold list_tasks. destruct (truthy (query_status req)); cbv zeta iota beta.
    + destruct (pool_query lib SelectTasksByStatus _ db) as [[e | rows] db'];
        [answer_error | answer_200].
    + destruct (pool_query lib SelectTasks _ db) as [[e | rows] db'];
        [answer_error | answer_200].
  - unfold get_task.
    destruct (pool_query lib SelectTask _ db) as [[e | rows] db'];
      [answer_error | ].
    destruct (Z.of_nat (length rows) =? 0); [answer_error | answer_200].
  - rewrite update_task_eq.
    destruct (patch_fields (req_body req)); [answer_error | ].
    destruct (fault db); [answer_error | ].
    destruct (_ <- as_integer lib (params_id req) ;; _)
      as [e | [table [ | r rs]]]; [answer_error | answer_error | answer_200].
  - unfold delete_task.
    destruct (pool_query lib DeleteTask _ db) as [[e | rows] db'];
      [answer_error | answer_200].
Qed.
